(** * proxy-runtime: the AssemblyScript side of the proxy-wasm ABI

    A shallow embedding of [assembly/runtime.ts]: the header codec
    ([pairsSize], [serializeHeaders], [deserializeHeaders]), the output slot
    ([ArrayBufferReference]), the getters built on it, the pending http-call
    table of [RootContext] and the context registry
    ([ensureRootContext], [ensureContext]).

    Conventions.
    - An [ArrayBuffer] is the list of its bytes; [byteLength] is its length.
    - [i32]/[u32] values are integers in [Z]; every arithmetic step of the
      source is followed by the wrap-around of its type.
    - WebAssembly memory is little-endian: a [Uint32Array] element occupies
      four consecutive bytes, least significant first.
    - Typed-array views are a pair (byte offset, byte length) into the buffer
      they wrap; an access outside a view, like an impossible allocation,
      raises a [RangeError] in AssemblyScript and yields [None] here.
    - Code that talks to the host runs in a state-and-abort monad over
      [World]; what the host answers at an import is an argument of the
      function that calls the import. *)

From Stdlib Require Import ZArith Lia Strings.Byte DecimalString.
From stdpp Require Import base numbers list strings.

Open Scope Z_scope.

(** ** Integers and bytes *)

Definition u32 (z : Z) : Z := z mod 2 ^ 32.
Definition i32 (z : Z) : Z := (z + 2 ^ 31) mod 2 ^ 32 - 2 ^ 31.

Definition Z_of_byte (b : byte) : Z := Z.of_N (Byte.to_N b).
Definition byte_of_Z (z : Z) : byte :=
  match Byte.of_N (Z.to_N (z mod 256)) with
  | Some b => b
  | None => x00
  end.

Abbreviation ArrayBuffer := (list byte).

Definition byteLength (b : ArrayBuffer) : Z := Z.of_nat (length b).

(** [export class HeaderPair { key: ArrayBuffer; value: ArrayBuffer }] *)
Record HeaderPair := { key : ArrayBuffer; value : ArrayBuffer }.

(** [export type Headers = Array<HeaderPair>] *)
Abbreviation Headers := (list HeaderPair).

(** The bytes of a [u32] in memory, and the [u32] that four bytes hold. *)
Definition u32_bytes (x : Z) : list byte :=
  [byte_of_Z x; byte_of_Z (x / 2 ^ 8); byte_of_Z (x / 2 ^ 16); byte_of_Z (x / 2 ^ 24)].

Definition u32_of_bytes (b0 b1 b2 b3 : byte) : Z :=
  Z_of_byte b0 + 2 ^ 8 * Z_of_byte b1 + 2 ^ 16 * Z_of_byte b2 + 2 ^ 24 * Z_of_byte b3.

(** ** Typed-array views

    Code that can raise a [RangeError] runs in the option monad, written
    with stdpp's [x ← c; k]. *)

Record View := { byteOffset : Z; viewLength : Z }.

(** [ArrayBuffer#slice(begin, end)]: both ends are clamped to the buffer, a
    negative end counts from the end of the buffer. *)
Definition clamp_index (len idx : Z) : Z :=
  if idx <? 0 then Z.max (len + idx) 0 else Z.min idx len.

Definition slice (buf : ArrayBuffer) (begin end_ : Z) : ArrayBuffer :=
  let len := byteLength buf in
  let b := clamp_index len begin in
  let e := clamp_index len end_ in
  take (Z.to_nat (Z.max (e - b) 0)) (drop (Z.to_nat b) buf).

(** [Uint8Array#subarray(begin, end)] of a view: same clamping, no copy. *)
Definition subarray (v : View) (begin end_ : Z) : View :=
  let len := viewLength v in
  let b := clamp_index len begin in
  let e := Z.max (clamp_index len end_) b in
  {| byteOffset := byteOffset v + b; viewLength := e - b |}.

(** [Uint8Array.wrap(buffer, byteOffset)]: the rest of the buffer. *)
Definition Uint8Array_wrap (buf : ArrayBuffer) (off : Z) : option View :=
  if (off <? 0) || (byteLength buf <? off) then None
  else Some {| byteOffset := off; viewLength := byteLength buf - off |}.

(** [Uint32Array.wrap(buffer, byteOffset, length)]: [length] elements; the
    offset must be aligned and the view must fit. A length of [-1] means the
    rest of the buffer, any other negative length is refused. *)
Definition Uint32Array_wrap (buf : ArrayBuffer) (off len : Z) : option View :=
  if (off <? 0) || (byteLength buf <? off) || negb (off mod 4 =? 0) then None
  else if len <? 0 then
    if (len =? -1) && (byteLength buf mod 4 =? 0)
    then Some {| byteOffset := off; viewLength := byteLength buf - off |}
    else None
  else if byteLength buf <? off + 4 * len then None
  else Some {| byteOffset := off; viewLength := 4 * len |}.

(** [view[i] = b] on a [Uint8Array]. *)
Definition Uint8Array_set (v : View) (i : Z) (b : byte) (buf : ArrayBuffer)
  : option ArrayBuffer :=
  if (0 <=? i) && (i <? viewLength v)
  then Some (<[Z.to_nat (byteOffset v + i) := b]> buf)
  else None.

Definition store_u32 (buf : ArrayBuffer) (addr : Z) (x : Z) : ArrayBuffer :=
  let a := Z.to_nat addr in
  <[(a + 3)%nat := byte_of_Z (x / 2 ^ 24)]>
    (<[(a + 2)%nat := byte_of_Z (x / 2 ^ 16)]>
       (<[(a + 1)%nat := byte_of_Z (x / 2 ^ 8)]>
          (<[a := byte_of_Z x]> buf))).

(** [view[i] = x] on a [Uint32Array]. *)
Definition Uint32Array_set (v : View) (i : Z) (x : Z) (buf : ArrayBuffer)
  : option ArrayBuffer :=
  if (0 <=? i) && (i <? viewLength v / 4)
  then Some (store_u32 buf (byteOffset v + 4 * i) x)
  else None.

(** [view[i]] on a [Uint32Array]. *)
Definition Uint32Array_get (v : View) (i : Z) (buf : ArrayBuffer) : option Z :=
  if (0 <=? i) && (i <? viewLength v / 4)
  then
    let a := Z.to_nat (byteOffset v + 4 * i) in
    b0 ← buf !! a;
    b1 ← buf !! (a + 1)%nat;
    b2 ← buf !! (a + 2)%nat;
    b3 ← buf !! (a + 3)%nat;
    Some (u32_of_bytes b0 b1 b2 b3)
  else None.


(** ** Enumerations *)

Module LogLevelValues.
Inductive t := trace | debug | info | warn | error | critical.
End LogLevelValues.

Module WasmResultValues.
Inductive t :=
| Ok | NotFound | BadArgument | SerializationFailure | ParseFailure
| BadExpression | InvalidMemoryAccess | Empty | CasMismatch | ResultMismatch
| InternalFailure | BrokenConnection.

Definition to_Z (c : t) : Z :=
  match c with
  | Ok => 0 | NotFound => 1 | BadArgument => 2 | SerializationFailure => 3
  | ParseFailure => 4 | BadExpression => 5 | InvalidMemoryAccess => 6
  | Empty => 7 | CasMismatch => 8 | ResultMismatch => 9
  | InternalFailure => 10 | BrokenConnection => 11
  end.

Definition is_Ok (c : t) : bool :=
  match c with Ok => true | _ => false end.
End WasmResultValues.

(** ** Strings

    A string is the sequence of its UTF-8 bytes, so [String.UTF8.encode] and
    [String.UTF8.decode] only change the container. *)

Definition String_UTF8_encode (s : string) : ArrayBuffer := String.list_byte_of_string s.
Definition String_UTF8_decode (b : ArrayBuffer) : string := String.string_of_list_byte b.

(** [toString()] of a non-negative integer: its decimal digits. *)
Definition toString (z : Z) : string := NilZero.string_of_uint (N.to_uint (Z.to_N z)).

(** [Array<u32>#join(separator)] *)
Definition join (separator : string) (xs : list Z) : string :=
  String.concat separator (map toString xs).

(** ** [Map<K, V>]

    AssemblyScript's [Map] keeps its entries in insertion order: [set] on a
    present key replaces the value in place, on an absent key it appends;
    [delete] removes the key; [keys()] and [values()] list the entries in
    that order. A table built with [set] holds a key once. *)

Section Map.
Context {K V : Type} `{EqDecision K}.

Definition Map_has (m : list (K * V)) (k : K) : bool :=
  bool_decide (k ∈ m.*1).

Fixpoint Map_get (m : list (K * V)) (k : K) : option V :=
  match m with
  | [] => None
  | (k', v) :: m' => if decide (k' = k) then Some v else Map_get m' k
  end.

Fixpoint Map_set (m : list (K * V)) (k : K) (v : V) : list (K * V) :=
  match m with
  | [] => [(k, v)]
  | (k', v') :: m' =>
      if decide (k' = k) then (k, v) :: m' else (k', v') :: Map_set m' k v
  end.

Fixpoint Map_delete (m : list (K * V)) (k : K) : list (K * V) :=
  match m with
  | [] => []
  | (k', v') :: m' =>
      if decide (k' = k) then Map_delete m' k else (k', v') :: Map_delete m' k
  end.

Definition Map_keys (m : list (K * V)) : list K := m.*1.
Definition Map_values (m : list (K * V)) : list V := m.*2.
Definition Map_size (m : list (K * V)) : Z := Z.of_nat (length m).
Definition Map_clear (m : list (K * V)) : list (K * V) := [].

End Map.

Abbreviation Map K V := (list (K * V)).

(** ** Objects

    Object references are indices into [heap]. Of the fields of the context
    classes only those the registry and the pending-call table use are kept;
    the slots that hold hook targets ([onDone_], [onTick_], ...) are not. *)

Definition loc := nat.

(** [class HttpCallback]: the callback is a function reference. *)
Record HttpCallback := { origin_context : loc; cb : Z }.

(** [class Context extends BaseContext] *)
Record Context := { Context_context_id : Z; root_context : loc }.

(** [class RootContext extends BaseContext]. [createContext_] is the stored
    call target: the fields of the context object it builds, given the root
    it is called on and the id. *)
Record RootContext := {
  RootContext_context_id : Z;
  createContext_ : loc -> Z -> Context;
  configuration_ : string;
  http_calls_ : Map Z HttpCallback
}.

Inductive BaseContext :=
| OfRootContext (r : RootContext)
| OfContext (c : Context).

Definition context_id (b : BaseContext) : Z :=
  match b with
  | OfRootContext r => RootContext_context_id r
  | OfContext c => Context_context_id c
  end.

(** [class ArrayBufferReference { buffer: usize; size: usize }] *)
Record ArrayBufferReference := { buffer : Z; size : Z }.

(** What the module does that the outside can see: lines handed to
    [proxy_log], blocks handed to [free], and the plugin code it calls
    (http callbacks, root-context factories, [createContext_] targets).
    [free] is imported from [./malloc], which is not among these sources: a
    call to it is recorded, what it does to the allocator is left open. *)
Inductive Event :=
| proxy_log (level : LogLevelValues.t) (message : string)
| free (ptr : Z)
| call_cb (f : Z) (origin : loc) (headers body_size trailers : Z)
| call_factory (root_id : string) (context_id : Z)
| call_createContext_ (root : loc) (context_id : Z).

(** The module's globals and the linear memory the host fills. [memory a]
    is the [ArrayBuffer] found at address [a]. *)
Record World := {
  globalArrayBufferReference : ArrayBufferReference;
  memory : Z -> list byte;
  heap : list BaseContext;
  context_map : Map Z loc;
  root_context_factory_map : Map string (Z -> RootContext);
  events : list Event
}.

Definition set_globalArrayBufferReference (r : ArrayBufferReference) (w : World) : World :=
  {| globalArrayBufferReference := r; memory := memory w; heap := heap w;
     context_map := context_map w;
     root_context_factory_map := root_context_factory_map w; events := events w |}.

Definition set_memory (m : Z -> list byte) (w : World) : World :=
  {| globalArrayBufferReference := globalArrayBufferReference w; memory := m;
     heap := heap w; context_map := context_map w;
     root_context_factory_map := root_context_factory_map w; events := events w |}.

Definition set_heap (h : list BaseContext) (w : World) : World :=
  {| globalArrayBufferReference := globalArrayBufferReference w; memory := memory w;
     heap := h; context_map := context_map w;
     root_context_factory_map := root_context_factory_map w; events := events w |}.

Definition set_context_map (m : Map Z loc) (w : World) : World :=
  {| globalArrayBufferReference := globalArrayBufferReference w; memory := memory w;
     heap := heap w; context_map := m;
     root_context_factory_map := root_context_factory_map w; events := events w |}.

Definition set_root_context_factory_map (m : Map string (Z -> RootContext)) (w : World)
  : World :=
  {| globalArrayBufferReference := globalArrayBufferReference w; memory := memory w;
     heap := heap w; context_map := context_map w;
     root_context_factory_map := m; events := events w |}.

Definition set_events (e : list Event) (w : World) : World :=
  {| globalArrayBufferReference := globalArrayBufferReference w; memory := memory w;
     heap := heap w; context_map := context_map w;
     root_context_factory_map := root_context_factory_map w; events := e |}.

(** ** The monad: state, and [throw] (which ends the run). *)

Inductive Outcome (A : Type) :=
| Ret (a : A) (w : World)
| Abort (message : string) (w : World).
Arguments Ret {A} a w.
Arguments Abort {A} message w.

Definition M (A : Type) : Type := World -> Outcome A.

#[global] Instance M_ret : MRet M := fun A a w => Ret a w.
#[global] Instance M_bind : MBind M := fun A B f c w =>
  match c w with
  | Ret a w' => f a w'
  | Abort message w' => Abort message w'
  end.

Definition throw {A} (message : string) : M A := fun w => Abort message w.
Definition get_world : M World := fun w => Ret w w.
Definition modify (f : World -> World) : M unit := fun w => Ret tt (f w).
Definition emit (e : Event) : M unit := modify (fun w => set_events (events w ++ [e]) w).

(** A [RangeError] raised by the codec ends the run like any other throw. *)
Definition lift_RangeError {A} (o : option A) : M A :=
  match o with
  | Some a => mret a
  | None => throw "RangeError"
  end.

(** ** What the host answers *)

(** An import with a (pointer, size) pair of out-parameters: the status, and
    what the host stored through the two pointers, if anything: the address
    of the block it allocated, the size, and the block's bytes. *)
Record HostBuffer := {
  hb_result : WasmResultValues.t;
  hb_stored : option (Z * Z * list byte)
}.

(** [proxy_http_call]: the status, and the value of [token.data] after the
    call. *)
Record HostHttpCall := {
  hc_result : WasmResultValues.t;
  hc_token : Z
}.

(** The import, called with the addresses of the two fields of
    [globalArrayBufferReference]: the host stores through them, or not. *)
Definition host_stores (host : HostBuffer) (w : World) : World :=
  match hb_stored host with
  | Some (ptr, sz, block) =>
      set_globalArrayBufferReference {| buffer := ptr; size := sz |}
        (set_memory (fun a => if a =? ptr then block else memory w a) w)
  | None => w
  end.

Definition call_with_globalArrayBufferReference (host : HostBuffer)
  : M WasmResultValues.t :=
  modify (host_stores host);;
  mret (hb_result host).

(** ** Wrappers *)

Definition log (level : LogLevelValues.t) (logMessage : string) : M unit :=
  emit (proxy_log level logMessage).

Definition CHECK_RESULT (c : WasmResultValues.t) : M unit :=
  if WasmResultValues.is_Ok c then mret tt
  else
    log LogLevelValues.critical (toString (WasmResultValues.to_Z c));;
    throw ":(".

(** [ArrayBufferReference#toArrayBuffer], on the one instance there is. *)
Definition toArrayBuffer : M ArrayBuffer :=
  w ← get_world;
  let this := globalArrayBufferReference w in
  if size this =? 0 then mret []
  else
    let array := memory w (buffer this) in
    emit (free (buffer this));;
    mret array.

Definition get_property (host : HostBuffer) (path : string) : M ArrayBuffer :=
  let buffer := String_UTF8_encode path in
  result ← call_with_globalArrayBufferReference host;
  CHECK_RESULT result;;
  toArrayBuffer.

Definition get_header_map_value (host : HostBuffer) (typ : Z) (key : ArrayBuffer)
  : M ArrayBuffer :=
  result ← call_with_globalArrayBufferReference host;
  if WasmResultValues.is_Ok result then toArrayBuffer else mret [].

Definition get_header_map_flat_pairs (host : HostBuffer) (typ : Z) : M ArrayBuffer :=
  result ← call_with_globalArrayBufferReference host;
  if WasmResultValues.is_Ok result then toArrayBuffer else mret [].

Definition get_buffer_bytes (host : HostBuffer) (typ : Z) (start length : Z)
  : M ArrayBuffer :=
  result ← call_with_globalArrayBufferReference host;
  if WasmResultValues.is_Ok result then toArrayBuffer else mret [].

(** ** The layout the codec writes, stated on lists *)

Definition sizes_table (headers : Headers) : list byte :=
  flat_map (fun h => u32_bytes (byteLength (key h)) ++ u32_bytes (byteLength (value h)))
    headers.

Definition payload (headers : Headers) : list byte :=
  flat_map (fun h => key h ++ [x00] ++ value h ++ [x00]) headers.

Definition layout (headers : Headers) : list byte :=
  u32_bytes (Z.of_nat (length headers)) ++ sizes_table headers ++ payload headers.

(** The size of the encoding, without wrap-around. *)
Definition pairBytes (h : HeaderPair) : Z :=
  8 + (byteLength (key h) + 1) + (byteLength (value h) + 1).

Definition encodedSize (headers : Headers) : Z :=
  4 + foldr (fun h acc => pairBytes h + acc) 0 headers.

Section Runtime.

(** The largest [ArrayBuffer] the AssemblyScript runtime allocates. The
    constant belongs to the language runtime, not to this repository; all
    that is used of it is that it is an [i32]. *)
Variable BLOCK_MAXSIZE : Z.

(** [new ArrayBuffer(length)]: zero-filled; the length is compared
    unsigned, so a negative length is refused too. *)
Definition new_ArrayBuffer (length : Z) : option ArrayBuffer :=
  if BLOCK_MAXSIZE <? u32 length then None
  else Some (replicate (Z.to_nat length) x00).

(** ** The header codec *)

Fixpoint pairsSize_loop (headers : Headers) (size : Z) : Z :=
  match headers with
  | [] => size
  | header :: rest =>
      let size := i32 (size + 8) in
      let size := i32 (size + i32 (byteLength (key header) + 1)) in
      let size := i32 (size + i32 (byteLength (value header) + 1)) in
      pairsSize_loop rest size
  end.

Definition pairsSize (headers : Headers) : Z := pairsSize_loop headers 4.

(** The first loop of [serializeHeaders]: the table of lengths. *)
Fixpoint write_sizes (headers : Headers) (sizes : View) (index : Z)
    (result : ArrayBuffer) : option ArrayBuffer :=
  match headers with
  | [] => Some result
  | header :: rest =>
      result ← Uint32Array_set sizes index (byteLength (key header)) result;
      let index := i32 (index + 1) in
      result ← Uint32Array_set sizes index (byteLength (value header)) result;
      let index := i32 (index + 1) in
      write_sizes rest sizes index result
  end.

(** The inner copy loop: [for (i...) dst[i] = src[i]]. *)
Fixpoint copy_bytes (src : list byte) (dst : View) (i : Z)
    (result : ArrayBuffer) : option ArrayBuffer :=
  match src with
  | [] => Some result
  | b :: src' =>
      result ← Uint8Array_set dst i b result;
      copy_bytes src' dst (i32 (i + 1)) result
  end.

(** The second loop of [serializeHeaders]: keys and values, each followed
    by one byte that is skipped, not written. *)
Fixpoint write_payload (headers : Headers) (data : View) (currentOffset : Z)
    (result : ArrayBuffer) : option ArrayBuffer :=
  match headers with
  | [] => Some result
  | header :: rest =>
      let wrappedKey := key header in
      let keyData :=
        subarray data currentOffset (i32 (currentOffset + byteLength wrappedKey)) in
      result ← copy_bytes wrappedKey keyData 0 result;
      let currentOffset := i32 (currentOffset + i32 (byteLength wrappedKey + 1)) in
      let wrappedValue := value header in
      let valueData :=
        subarray data currentOffset (i32 (currentOffset + byteLength wrappedValue)) in
      result ← copy_bytes wrappedValue valueData 0 result;
      let currentOffset := i32 (currentOffset + i32 (byteLength wrappedValue + 1)) in
      write_payload rest data currentOffset result
  end.

Definition serializeHeaders (headers : Headers) : option ArrayBuffer :=
  result ← new_ArrayBuffer (pairsSize headers);
  sizes ← Uint32Array_wrap result 0 (i32 (1 + 2 * Z.of_nat (length headers)));
  result ← Uint32Array_set sizes 0 (Z.of_nat (length headers)) result;
  result ← write_sizes headers sizes 1 result;
  data ← Uint8Array_wrap result (viewLength sizes);
  write_payload headers data 0 result.

(** The loop of [deserializeHeaders], [n] rounds left. *)
Fixpoint deserialize_loop (n : nat) (sizes : View) (headers data : ArrayBuffer)
    (sizeIndex dataIndex : Z) : option Headers :=
  match n with
  | O => Some []
  | S n' =>
      keySize ← Uint32Array_get sizes sizeIndex headers;
      let sizeIndex := i32 (sizeIndex + 1) in
      let header_key_data := slice data dataIndex (i32 (dataIndex + keySize)) in
      let dataIndex := i32 (dataIndex + u32 (keySize + 1)) in
      valueSize ← Uint32Array_get sizes sizeIndex headers;
      let sizeIndex := i32 (sizeIndex + 1) in
      let header_value_data := slice data dataIndex (i32 (dataIndex + valueSize)) in
      let dataIndex := i32 (dataIndex + u32 (valueSize + 1)) in
      rest ← deserialize_loop n' sizes headers data sizeIndex dataIndex;
      Some ({| key := header_key_data; value := header_value_data |} :: rest)
  end.

Definition deserializeHeaders (headers : ArrayBuffer) : option Headers :=
  first ← Uint32Array_wrap headers 0 1;
  numheaders ← Uint32Array_get first 0 headers;
  sizes ← Uint32Array_wrap headers 4 (i32 (u32 (2 * numheaders)));
  let data :=
    slice headers (i32 (u32 (4 * u32 (1 + u32 (2 * numheaders))))) BLOCK_MAXSIZE in
  deserialize_loop (Z.to_nat numheaders) sizes headers data 0 0.


(** ** [RootContext]: the pending http calls *)

(** [Array<HeaderPair>#toString()] and [ArrayBuffer#toString()], which only
    feed debug log lines, belong to the language runtime. *)
Variable Headers_toString : Headers -> string.
Variable ArrayBuffer_toString : ArrayBuffer -> string.

Definition set_http_calls_ (m : Map Z HttpCallback) (r : RootContext) : RootContext :=
  {| RootContext_context_id := RootContext_context_id r;
     createContext_ := createContext_ r;
     configuration_ := configuration_ r;
     http_calls_ := m |}.

Definition set_context_id (id : Z) (r : RootContext) : RootContext :=
  {| RootContext_context_id := id;
     createContext_ := createContext_ r;
     configuration_ := configuration_ r;
     http_calls_ := http_calls_ r |}.

(** [RootContext#createContext]:
    [ContextHelper.wrap(new Context(context_id, this))]. The wrapper and the
    context it wraps share their id and their root; they count as one object. *)
Definition RootContext_createContext (this : loc) (context_id : Z) : Context :=
  {| Context_context_id := context_id; root_context := this |}.

(** [new RootContext(context_id)] *)
Definition new_RootContext (context_id : Z) : RootContext :=
  {| RootContext_context_id := context_id;
     createContext_ := RootContext_createContext;
     configuration_ := EmptyString;
     http_calls_ := [] |}.

(** Dereferencing. A method of [RootContext] runs on a [RootContext]; the
    other cases cannot arise from well-typed callers and end the run. *)
Definition load (l : loc) : M BaseContext :=
  w ← get_world;
  match heap w !! l with
  | Some o => mret o
  | None => throw "invalid reference"
  end.

Definition this_RootContext (this : loc) : M RootContext :=
  o ← load this;
  match o with
  | OfRootContext r => mret r
  | OfContext _ => throw "not a RootContext"
  end.

Definition store (l : loc) (o : BaseContext) : M unit :=
  modify (fun w => set_heap (<[l := o]> (heap w)) w).

(** [new]: the object is placed at the next free reference. *)
Definition alloc (o : BaseContext) : M loc :=
  w ← get_world;
  modify (set_heap (heap w ++ [o]));;
  mret (length (heap w)).

(** [Map#get] throws when the key is absent. *)
Definition Map_get_or_throw {K V} `{EqDecision K} (m : Map K V) (k : K) : M V :=
  match Map_get m k with
  | Some v => mret v
  | None => throw "Key does not exist"
  end.

Definition httpCall (host : HostHttpCall) (this : loc) (cluster : string)
    (headers : Headers) (body : ArrayBuffer) (trailers : Headers)
    (timeout_milliseconds : Z) (origin_context : loc) (cb : Z)
  : M WasmResultValues.t :=
  self ← this_RootContext this;
  log LogLevelValues.debug
    ("context id: " +:+ toString (RootContext_context_id self)
     +:+ ": httpCall(cluster: " +:+ cluster
     +:+ ", headers:" +:+ Headers_toString headers
     +:+ ", body:" +:+ ArrayBuffer_toString body
     +:+ ", trailers:" +:+ Headers_toString trailers +:+ ")");;
  let buffer := String_UTF8_encode cluster in
  header_pairs ← lift_RangeError (serializeHeaders headers);
  trailer_pairs ← lift_RangeError (serializeHeaders trailers);
  let result := hc_result host in
  let token := hc_token host in
  log LogLevelValues.debug
    ("Http call executed with result: " +:+ toString (WasmResultValues.to_Z result));;
  (if WasmResultValues.is_Ok result then
     log LogLevelValues.debug
       ("set token: " +:+ toString token +:+ " on "
        +:+ toString (RootContext_context_id self));;
     self ← this_RootContext this;
     store this
       (OfRootContext
          (set_http_calls_
             (Map_set (http_calls_ self) token
                {| origin_context := origin_context; cb := cb |}) self))
   else mret tt);;
  mret result.

Definition onHttpCallResponse (this : loc) (token headers body_size trailers : Z)
  : M unit :=
  self ← this_RootContext this;
  log LogLevelValues.debug
    ("context id: " +:+ toString (RootContext_context_id self)
     +:+ ": onHttpCallResponse(token: " +:+ toString token
     +:+ ", headers:" +:+ toString headers
     +:+ ", body_size:" +:+ toString body_size
     +:+ ", trailers:" +:+ toString trailers +:+ ")");;
  log LogLevelValues.debug
    ("http_calls_: " +:+ toString (Map_size (http_calls_ self)));;
  log LogLevelValues.debug
    ("get token: " +:+ toString token +:+ " from "
     +:+ toString (RootContext_context_id self));;
  w ← get_world;
  log LogLevelValues.debug
    ("context_map: " +:+ join ", " (Map_keys (context_map w)));;
  if Map_has (http_calls_ self) token then
    callback ← Map_get_or_throw (http_calls_ self) token;
    origin ← load (origin_context callback);
    log LogLevelValues.debug
      ("onHttpCallResponse: calling callback for context id: "
       +:+ toString (context_id origin));;
    self ← this_RootContext this;
    store this
      (OfRootContext (set_http_calls_ (Map_delete (http_calls_ self) token) self));;
    emit (call_cb (cb callback) (origin_context callback) headers body_size trailers)
  else
    log LogLevelValues.error
      ("onHttpCallResponse: Token " +:+ toString token +:+ " not found.").

(** The first loop of [cancelPendingRequests]. *)
Fixpoint cancel_callbacks (callbacks : list HttpCallback) : M unit :=
  match callbacks with
  | [] => mret tt
  | callback :: rest =>
      emit (call_cb (cb callback) (origin_context callback) 0 0 0);;
      cancel_callbacks rest
  end.

(** Its second loop reads each key and does nothing with it. *)
Fixpoint visit_keys (keys : list Z) : M unit :=
  match keys with
  | [] => mret tt
  | key :: rest => visit_keys rest
  end.

Definition cancelPendingRequests (this : loc) : M unit :=
  self ← this_RootContext this;
  log LogLevelValues.debug
    ("context id: " +:+ toString (RootContext_context_id self)
     +:+ ": cancelPendingRequests()");;
  let callbacks := Map_values (http_calls_ self) in
  cancel_callbacks callbacks;;
  self ← this_RootContext this;
  let keys := Map_keys (http_calls_ self) in
  visit_keys keys;;
  self ← this_RootContext this;
  store this (OfRootContext (set_http_calls_ (Map_clear (http_calls_ self)) self)).

(** [RootContext#onDone] *)
Definition onDone (this : loc) : M bool :=
  self ← this_RootContext this;
  log LogLevelValues.debug
    ("context id: " +:+ toString (RootContext_context_id self) +:+ ": onDone()");;
  cancelPendingRequests this;;
  mret true.

(** ** The registry *)



Definition get_plugin_root_id (host : HostBuffer) : M string :=
  root_id ← get_property host "plugin_root_id";
  if byteLength root_id =? 0 then mret EmptyString
  else mret (String_UTF8_decode root_id).

Definition getRootContext (context_id : Z) : M loc :=
  w ← get_world;
  Map_get_or_throw (context_map w) context_id.

Definition ensureRootContext (host : HostBuffer) (root_context_id : Z) : M loc :=
  log LogLevelValues.debug
    ("ensureRootContext(root_context_id: " +:+ toString root_context_id +:+ ")");;
  w ← get_world;
  log LogLevelValues.debug
    ("Current context_map: " +:+ join ", " (Map_keys (context_map w)));;
  if Map_has (context_map w) root_context_id then
    log LogLevelValues.debug
      ("Returning root context for id: " +:+ toString root_context_id);;
    getRootContext root_context_id
  else
    root_id ← get_plugin_root_id host;
    log LogLevelValues.debug
      ("Registering new root context for " +:+ root_id +:+ " with id: "
       +:+ toString root_context_id);;
    w ← get_world;
    if negb (Map_has (root_context_factory_map w) root_id) then
      throw ("Missing root context factory for root id: " +:+ root_id)
    else
      root_context_func ← Map_get_or_throw (root_context_factory_map w) root_id;
      emit (call_factory root_id root_context_id);;
      root_context ← alloc (OfRootContext (root_context_func root_context_id));
      store root_context
        (OfRootContext (set_context_id root_context_id (root_context_func root_context_id)));;
      modify (fun w =>
        set_context_map (Map_set (context_map w) root_context_id root_context) w);;
      mret root_context.

Definition ensureContext (host : HostBuffer) (context_id root_context_id : Z) : M unit :=
  log LogLevelValues.debug
    ("ensureContext(context_id: " +:+ toString context_id
     +:+ ", root_context_id: " +:+ toString root_context_id +:+ ")");;
  w ← get_world;
  log LogLevelValues.debug
    ("Current context_map: " +:+ join ", " (Map_keys (context_map w)));;
  root_context ← ensureRootContext host root_context_id;
  w ← get_world;
  if Map_has (context_map w) context_id then
    log LogLevelValues.debug ("Existing context id: " +:+ toString context_id)
  else
    log LogLevelValues.debug
      ("Registering new context with context_id: " +:+ toString context_id
       +:+ " under root_context: " +:+ toString root_context_id);;
    self ← this_RootContext root_context;
    emit (call_createContext_ root_context context_id);;
    context ← alloc (OfContext (createContext_ self root_context context_id));
    modify (fun w => set_context_map (Map_set (context_map w) context_id context) w);;
    w ← get_world;
    log LogLevelValues.debug
      ("Updated context_map: " +:+ join ", " (Map_keys (context_map w))).

Definition deleteContext (context_id : Z) : M unit :=
  modify (fun w => set_context_map (Map_delete (context_map w) context_id) w).

Definition registerRootContext (root_context_factory : Z -> RootContext) (name : string)
  : M unit :=
  modify (fun w =>
    set_root_context_factory_map
      (Map_set (root_context_factory_map w) name root_context_factory) w).

(** ** Vocabulary of the statements *)

(** What a run returned, and the world it left. *)
Definition returned {A} (o : Outcome A) : option A :=
  match o with
  | Ret a _ => Some a
  | Abort _ _ => None
  end.

Definition final {A} (o : Outcome A) : World :=
  match o with
  | Ret _ w => w
  | Abort _ w => w
  end.

(** The pending-call table of the root context at [this]. *)
Definition http_calls_at (w : World) (this : loc) : option (Map Z HttpCallback) :=
  match heap w !! this with
  | Some (OfRootContext r) => Some (http_calls_ r)
  | _ => None
  end.

Definition is_call_cb (e : Event) : bool :=
  match e with call_cb _ _ _ _ _ => true | _ => false end.

Definition is_call_factory (e : Event) : bool :=
  match e with call_factory _ _ => true | _ => false end.

Definition is_call_createContext_ (e : Event) : bool :=
  match e with call_createContext_ _ _ => true | _ => false end.

Definition is_proxy_log (e : Event) : bool :=
  match e with proxy_log _ _ => true | _ => false end.

(** The continuation invocations among some events, in order. *)
Definition cb_events (es : list Event) : list Event := List.filter is_call_cb es.

(** One outbound call: the arguments of [httpCall] and the host's answer. *)
Record HttpCallArgs := {
  a_host : HostHttpCall;
  a_cluster : string;
  a_headers : Headers;
  a_body : ArrayBuffer;
  a_trailers : Headers;
  a_timeout_milliseconds : Z;
  a_origin_context : loc;
  a_cb : Z
}.

(** A sequence of calls issued on the root context at [this]. *)
Fixpoint httpCalls (this : loc) (calls : list HttpCallArgs)
  : M (list WasmResultValues.t) :=
  match calls with
  | [] => mret []
  | c :: rest =>
      r ← httpCall (a_host c) this (a_cluster c) (a_headers c) (a_body c)
            (a_trailers c) (a_timeout_milliseconds c) (a_origin_context c) (a_cb c);
      rs ← httpCalls this rest;
      mret (r :: rs)
  end.

Definition add_events (es : list Event) (w : World) : World :=
  set_events (events w ++ es) w.

(** The bytes [toArrayBuffer] hands out in a world, and the root id
    [get_plugin_root_id] makes of them. *)
Definition converted (w : World) : ArrayBuffer :=
  if size (globalArrayBufferReference w) =? 0 then []
  else memory w (buffer (globalArrayBufferReference w)).

Definition root_id_of (b : ArrayBuffer) : string :=
  if byteLength b =? 0 then EmptyString else String_UTF8_decode b.

(** The globals when the module starts. *)
Definition initial_World : World :=
  {| globalArrayBufferReference := {| buffer := 0; size := 0 |};
     memory := fun _ => [];
     heap := [];
     context_map := [];
     root_context_factory_map := [];
     events := [] |}.

(** Events among which the module calls no plugin code. *)
Definition quiet (es : list Event) : Prop :=
  forallb (fun e => negb (is_call_factory e || is_call_cb e || is_call_createContext_ e)) es
  = true.

(** The pending call [httpCall] registers. *)
Definition pending (origin_context : loc) (cb : Z) : HttpCallback :=
  {| origin_context := origin_context; cb := cb |}.

(** The heap after the root context at [this] got the table [m]. *)
Definition with_http_calls_ (this : loc) (r : RootContext) (m : Map Z HttpCallback)
    (h : list BaseContext) : list BaseContext :=
  <[this := OfRootContext (set_http_calls_ m r)]> h.

(** The cancellation a pending call receives: the "no response" handles. *)
Definition cancellation (c : HttpCallback) : Event :=
  call_cb (cb c) (origin_context c) 0 0 0.

(** The table entry an accepted call leaves. *)
Definition entry_of (c : HttpCallArgs) : Z * HttpCallback :=
  (hc_token (a_host c), pending (a_origin_context c) (a_cb c)).

(** ** Concrete data for the scenarios *)

(** The headers x-a: 1 and x-b: (empty value), and their encoding: the
    count, the table of lengths, the payload. *)
Definition scenario_headers : Headers :=
  [ {| key := String_UTF8_encode "x-a"; value := String_UTF8_encode "1" |};
    {| key := String_UTF8_encode "x-b"; value := [] |} ].

Definition scenario_payload : list byte :=
  String_UTF8_encode "x-a" ++ [x00] ++ String_UTF8_encode "1" ++ [x00]
  ++ String_UTF8_encode "x-b" ++ [x00] ++ [] ++ [x00].

Definition scenario_encoding (lens : list Z) : list byte :=
  u32_bytes 2 ++ flat_map u32_bytes lens ++ scenario_payload.

(** Headers with an empty key, an empty value, and both. *)
Definition empty_parts_headers : Headers :=
  [ {| key := []; value := String_UTF8_encode "v" |};
    {| key := String_UTF8_encode "k"; value := [] |};
    {| key := []; value := [] |} ].

(** The host answers [proxy_get_property] with the name "root". *)
Definition host_root_name : HostBuffer :=
  {| hb_result := WasmResultValues.Ok;
     hb_stored := Some (4096, 4, String_UTF8_encode "root") |}.

(** The host answers with a failure and stores nothing. *)
Definition host_not_found : HostBuffer :=
  {| hb_result := WasmResultValues.NotFound; hb_stored := None |}.

(** The host answers [Ok] with a block of three bytes. *)
Definition host_three_bytes : HostBuffer :=
  {| hb_result := WasmResultValues.Ok;
     hb_stored := Some (8192, 3, String_UTF8_encode "abc") |}.

(** The module after [registerRootContext(new RootContext, "root")]. *)
Definition registered_World : World :=
  set_root_context_factory_map [("root", new_RootContext)] initial_World.

(** A root context (id 1) at reference 0 and a stream context (id 5) at
    reference 1, both registered. *)
Definition running_World : World :=
  set_heap [OfRootContext (new_RootContext 1);
            OfContext (RootContext_createContext 0%nat 5)]
    (set_context_map [(1, 0%nat); (5, 1%nat)] registered_World).

(** Two calls from the stream context, accepted under the tokens 7 and 8. *)
Definition two_calls : list HttpCallArgs :=
  [ {| a_host := {| hc_result := WasmResultValues.Ok; hc_token := 7 |};
       a_cluster := "upstream"; a_headers := scenario_headers; a_body := [];
       a_trailers := []; a_timeout_milliseconds := 1000;
       a_origin_context := 1%nat; a_cb := 100 |};
    {| a_host := {| hc_result := WasmResultValues.Ok; hc_token := 8 |};
       a_cluster := "upstream"; a_headers := []; a_body := [];
       a_trailers := []; a_timeout_milliseconds := 1000;
       a_origin_context := 1%nat; a_cb := 101 |} ].


(** ** The wrappers built on the codec *)

(** [get_header_map_pairs]: the flat pairs, decoded. *)
Definition get_header_map_pairs (host : HostBuffer) (typ : Z) : M Headers :=
  pairs ← get_header_map_flat_pairs host typ;
  lift_RangeError (deserializeHeaders pairs).

(** [set_header_map_flat_pairs]. The host's answer to
    [proxy_set_header_map_pairs] is a function of what it is handed: the map
    type and the flat buffer. *)
Definition set_header_map_flat_pairs (host : Z -> ArrayBuffer -> WasmResultValues.t)
    (typ : Z) (flat_headers : ArrayBuffer) : M unit :=
  CHECK_RESULT (host typ flat_headers).

Definition set_header_map_pairs (host : Z -> ArrayBuffer -> WasmResultValues.t)
    (typ : Z) (headers : Headers) : M unit :=
  flat_headers ← lift_RangeError (serializeHeaders headers);
  set_header_map_flat_pairs host typ flat_headers.





(** [getBaseContext] and [getContext]: [context_map.get(context_id)] under
    another cast. *)
Definition getBaseContext (context_id : Z) : M loc :=
  w ← get_world;
  Map_get_or_throw (context_map w) context_id.

Definition getContext (context_id : Z) : M loc :=
  w ← get_world;
  Map_get_or_throw (context_map w) context_id.

(** ** Vocabulary of further statements *)

(** What [ensureContext] does once it holds the root context. *)
Definition ensureContext_after_root (context_id root_context_id : Z) (root_context : loc)
  : M unit :=
  w ← get_world;
  if Map_has (context_map w) context_id then
    log LogLevelValues.debug ("Existing context id: " +:+ toString context_id)
  else
    log LogLevelValues.debug
      ("Registering new context with context_id: " +:+ toString context_id
       +:+ " under root_context: " +:+ toString root_context_id);;
    self ← this_RootContext root_context;
    emit (call_createContext_ root_context context_id);;
    context ← alloc (OfContext (createContext_ self root_context context_id));
    modify (fun w => set_context_map (Map_set (context_map w) context_id context) w);;
    w ← get_world;
    log LogLevelValues.debug
      ("Updated context_map: " +:+ join ", " (Map_keys (context_map w))).

(** A payload in which the two bytes that follow a key and a value are
    arbitrary: each header comes with the pair of bytes that follow its key
    and its value. *)
Definition payload_with (framed : list (HeaderPair * (byte * byte))) : list byte :=
  flat_map (fun f => key (fst f) ++ [fst (snd f)] ++ value (fst f) ++ [snd (snd f)])
    framed.

(** The response a pending call receives. *)
Definition response (c : HttpCallArgs) (headers body_size trailers : Z) : Event :=
  call_cb (a_cb c) (a_origin_context c) headers body_size trailers.

(** ** Further concrete data *)

(** A host that refuses every map it is handed. *)
Definition host_refuses (typ : Z) (flat_headers : ArrayBuffer) : WasmResultValues.t :=
  WasmResultValues.BadArgument.

(** The scenario's headers with the bytes [1] and [2] where the encoder
    leaves zeros. *)
Definition scenario_framed : list (HeaderPair * (byte * byte)) :=
  map (fun h => (h, (x01, x02))) scenario_headers.

(** A second root context (id 2) at reference 2, beside [running_World]'s. *)
Definition two_roots_World : World :=
  set_heap [OfRootContext (new_RootContext 1);
            OfContext (RootContext_createContext 0%nat 5);
            OfRootContext
              (set_http_calls_ [(7, pending 1%nat 200)] (new_RootContext 2))]
    (set_context_map [(1, 0%nat); (5, 1%nat); (2, 2%nat)] registered_World).

(** The two calls of [two_calls], one by one. *)
Definition call_7 : HttpCallArgs :=
  {| a_host := {| hc_result := WasmResultValues.Ok; hc_token := 7 |};
     a_cluster := "upstream"; a_headers := scenario_headers; a_body := [];
     a_trailers := []; a_timeout_milliseconds := 1000;
     a_origin_context := 1%nat; a_cb := 100 |}.

Definition call_8 : HttpCallArgs :=
  {| a_host := {| hc_result := WasmResultValues.Ok; hc_token := 8 |};
     a_cluster := "upstream"; a_headers := []; a_body := [];
     a_trailers := []; a_timeout_milliseconds := 1000;
     a_origin_context := 1%nat; a_cb := 101 |}.


Lemma Z_of_byte_of_Z z : Z_of_byte (byte_of_Z z) = z mod 256.
Proof.
  unfold Z_of_byte, byte_of_Z.
  assert (Hr : 0 <= z mod 256 < 256) by (apply Z.mod_pos_bound; lia).
  destruct (Byte.of_N (Z.to_N (z mod 256))) as [b|] eqn:E.
  - apply Byte.to_of_N in E. rewrite E. lia.
  - apply Byte.of_N_None_iff in E. lia.
Qed.

Lemma i32_small z : - 2 ^ 31 <= z < 2 ^ 31 -> i32 z = z.
Proof. intros H. unfold i32. rewrite Z.mod_small; lia. Qed.

Lemma u32_small z : 0 <= z < 2 ^ 32 -> u32 z = z.
Proof. intros H. unfold u32. rewrite Z.mod_small; lia. Qed.

Lemma u32_of_bytes_u32_bytes x :
  0 <= x < 2 ^ 32 ->
  u32_of_bytes (byte_of_Z x) (byte_of_Z (x / 2 ^ 8)) (byte_of_Z (x / 2 ^ 16))
    (byte_of_Z (x / 2 ^ 24)) = x.
Proof.
  intros H. unfold u32_of_bytes. rewrite !Z_of_byte_of_Z.
  change (2 ^ 8) with 256. change (2 ^ 16) with (256 * 256).
  change (2 ^ 24) with (256 * 256 * 256). change (2 ^ 32) with (256*256*256*256) in H.
  rewrite <- !Z.div_div by lia.
  pose proof (Z.div_mod x 256 ltac:(lia)).
  pose proof (Z.div_mod (x / 256) 256 ltac:(lia)).
  pose proof (Z.div_mod (x / 256 / 256) 256 ltac:(lia)).
  assert (0 <= x / 256 / 256 / 256 < 256).
  { split. - repeat apply Z.div_pos; lia. 
    - repeat (apply Z.div_lt_upper_bound; [lia|]). lia. }
  rewrite (Z.mod_small (x / 256 / 256 / 256)) by lia.
  lia.
Qed.
Lemma insert_app_r_0 {A} (l1 l2 : list A) (x : A) :
  <[length l1 := x]> (l1 ++ l2) = l1 ++ <[0%nat := x]> l2.
Proof. rewrite <- (Nat.add_0_r (length l1)) at 1. apply insert_app_r. Qed.

Lemma store_u32_app (pre post : list byte) (b0 b1 b2 b3 : byte) (addr x : Z) :
  addr = Z.of_nat (length pre) ->
  store_u32 (pre ++ [b0; b1; b2; b3] ++ post) addr x = pre ++ u32_bytes x ++ post.
Proof.
  intros ->. unfold store_u32. rewrite Nat2Z.id.
  rewrite insert_app_r_0, !insert_app_r. reflexivity.
Qed.


Lemma copy_bytes_app (src pre post : list byte) (dst : View) (i : Z) :
  0 <= i -> 0 <= byteOffset dst ->
  byteOffset dst + i = Z.of_nat (length pre) ->
  i + Z.of_nat (length src) <= viewLength dst ->
  viewLength dst < 2 ^ 31 ->
  copy_bytes src dst i (pre ++ replicate (length src) x00 ++ post)
  = Some (pre ++ src ++ post).
Proof.
  revert pre i. induction src as [|b src IH]; intros pre i Hi Ho Hpre Hfit Hsmall.
  - reflexivity.
  - cbn [copy_bytes length]. unfold Uint8Array_set.
    cbn [length] in Hfit.
    replace ((0 <=? i) && (i <? viewLength dst)) with true
      by (symmetry; apply andb_true_iff; split; [apply Z.leb_le | apply Z.ltb_lt]; lia).
    cbn [mbind option_bind].
    rewrite Hpre, Nat2Z.id.
    rewrite insert_app_r_0. cbn [replicate app].
    change (<[0%nat:=b]> (x00 :: replicate (length src) x00 ++ post))
      with (b :: replicate (length src) x00 ++ post).
    rewrite i32_small by lia.
    replace (pre ++ b :: replicate (length src) x00 ++ post)
      with ((pre ++ [b]) ++ replicate (length src) x00 ++ post)
      by (rewrite <- app_assoc; reflexivity).
    rewrite IH; [ | lia | lia | rewrite length_app; cbn [length]; lia | lia | lia ].
    rewrite <- app_assoc. reflexivity.
Qed.

Lemma length_u32_bytes x : length (u32_bytes x) = 4%nat.
Proof. reflexivity. Qed.

Lemma length_sizes_table headers :
  length (sizes_table headers) = (8 * length headers)%nat.
Proof.
  induction headers as [|h hs IH]; [reflexivity|].
  unfold sizes_table in *. cbn [flat_map]. rewrite !length_app, IH, !length_u32_bytes.
  cbn [length]. lia.
Qed.

Lemma length_payload headers :
  Z.of_nat (length (payload headers)) = encodedSize headers - 4 - 8 * Z.of_nat (length headers).
Proof.
  unfold encodedSize.
  induction headers as [|h hs IH]; [reflexivity|].
  unfold payload in *. cbn [flat_map foldr]. rewrite !length_app. cbn [length] in *.
  rewrite ?length_app. cbn [length]. unfold pairBytes, byteLength in *. lia.
Qed.

Lemma length_layout headers :
  Z.of_nat (length (layout headers)) = encodedSize headers.
Proof.
  unfold layout. rewrite !length_app, length_u32_bytes, length_sizes_table.
  pose proof (length_payload headers). lia.
Qed.

Lemma encodedSize_lower headers : 4 + 10 * Z.of_nat (length headers) <= encodedSize headers.
Proof.
  unfold encodedSize. induction headers as [|h hs IH]; cbn [foldr length]; [lia|].
  unfold pairBytes at 1, byteLength. lia.
Qed.

Lemma encodedSize_cons h hs : encodedSize (h :: hs) = pairBytes h + encodedSize hs.
Proof. unfold encodedSize. cbn [foldr]. lia. Qed.


Lemma pairsSize_loop_exact headers size :
  0 <= size -> size + (encodedSize headers - 4) < 2 ^ 31 ->
  pairsSize_loop headers size = size + (encodedSize headers - 4).
Proof.
  revert size. induction headers as [|h hs IH]; intros size H0 Hb.
  - unfold encodedSize. cbn. lia.
  - rewrite encodedSize_cons in *. cbn [pairsSize_loop].
    pose proof (encodedSize_lower hs). unfold pairBytes, byteLength in *.
    rewrite (i32_small (size + 8)) by lia.
    rewrite (i32_small (Z.of_nat (length (key h)) + 1)) by lia.
    rewrite (i32_small (Z.of_nat (length (value h)) + 1)) by lia.
    rewrite (i32_small (size + 8 + _)) by lia.
    rewrite (i32_small (size + 8 + _ + _)) by lia.
    rewrite IH by lia. lia.
Qed.

Lemma pairsSize_exact headers :
  encodedSize headers < 2 ^ 31 -> pairsSize headers = encodedSize headers.
Proof. intros H. unfold pairsSize. rewrite pairsSize_loop_exact; lia. Qed.

Lemma true_andb_leb_ltb i n : 0 <= i < n -> (0 <=? i) && (i <? n) = true.
Proof. intros H. apply andb_true_iff; split; [apply Z.leb_le | apply Z.ltb_lt]; lia. Qed.

Lemma write_sizes_app headers (sizes : View) (index : Z) (pre post : list byte) :
  byteOffset sizes = 0 ->
  0 <= index ->
  4 * index = Z.of_nat (length pre) ->
  index + 2 * Z.of_nat (length headers) <= viewLength sizes / 4 ->
  viewLength sizes < 2 ^ 31 ->
  write_sizes headers sizes index (pre ++ replicate (8 * length headers) x00 ++ post)
  = Some (pre ++ sizes_table headers ++ post).
Proof.
  revert index pre. induction headers as [|h hs IH]; intros index pre Ho Hi Hpre Hfit Hs.
  - reflexivity.
  - cbn [length] in Hfit.
    pose proof (Z.mul_div_le (viewLength sizes) 4 ltac:(lia)) as Hdiv.
    cbn [write_sizes]. unfold Uint32Array_set.
    rewrite (i32_small (index + 1)) by lia.
    rewrite (true_andb_leb_ltb index) by lia. cbn [mbind option_bind].
    rewrite (true_andb_leb_ltb (index + 1)) by lia. cbn [mbind option_bind].
    rewrite (i32_small (index + 1 + 1)) by lia.
    replace (8 * length (h :: hs))%nat with (4 + (4 + 8 * length hs))%nat
      by (cbn [length]; lia).
    rewrite !replicate_add. cbn [replicate]. rewrite <- !app_assoc.
    rewrite (store_u32_app pre) by lia.
    replace (pre ++ u32_bytes (byteLength (key h)) ++
             [x00; x00; x00; x00] ++ replicate (8 * length hs) x00 ++ post)
      with ((pre ++ u32_bytes (byteLength (key h))) ++
             [x00; x00; x00; x00] ++ replicate (8 * length hs) x00 ++ post)
      by (rewrite <- app_assoc; reflexivity).
    rewrite store_u32_app by (rewrite length_app, length_u32_bytes; lia).
    replace ((pre ++ u32_bytes (byteLength (key h))) ++
             u32_bytes (byteLength (value h)) ++ replicate (8 * length hs) x00 ++ post)
      with ((pre ++ u32_bytes (byteLength (key h)) ++ u32_bytes (byteLength (value h)))
              ++ replicate (8 * length hs) x00 ++ post)
      by (rewrite <- !app_assoc; reflexivity).
    rewrite IH; [ | lia | lia | rewrite !length_app, !length_u32_bytes; lia | lia | lia ].
    unfold sizes_table. cbn [flat_map]. rewrite <- !app_assoc. reflexivity.
Qed.

Lemma subarray_inside (v : View) (b e : Z) :
  0 <= b -> b <= e -> e <= viewLength v ->
  subarray v b e = {| byteOffset := byteOffset v + b; viewLength := e - b |}.
Proof.
  intros Hb Hbe He. unfold subarray, clamp_index.
  destruct (b <? 0) eqn:E1; [apply Z.ltb_lt in E1; lia|].
  destruct (e <? 0) eqn:E2; [apply Z.ltb_lt in E2; lia|].
  f_equal; lia.
Qed.

Lemma payload_cons h hs :
  payload (h :: hs) = key h ++ [x00] ++ value h ++ [x00] ++ payload hs.
Proof. unfold payload. cbn [flat_map]. rewrite <- !app_assoc. reflexivity. Qed.

Ltac len_norm :=
  repeat first
    [ rewrite length_app | rewrite length_replicate | rewrite length_u32_bytes
    | rewrite length_sizes_table | progress cbn [length] ].

Ltac len_norm_in H :=
  repeat first [ rewrite length_app in H | progress cbn [length] in H ].

Lemma write_payload_app headers (data : View) (off : Z) (pre post : list byte) :
  0 <= off -> 0 <= byteOffset data ->
  byteOffset data + off = Z.of_nat (length pre) ->
  off + Z.of_nat (length (payload headers)) <= viewLength data ->
  viewLength data < 2 ^ 31 ->
  write_payload headers data off (pre ++ replicate (length (payload headers)) x00 ++ post)
  = Some (pre ++ payload headers ++ post).
Proof.
  revert off pre. induction headers as [|h hs IH]; intros off pre H0 Hd Hpre Hfit Hs.
  - reflexivity.
  - rewrite payload_cons in *. len_norm_in Hfit.
    cbn [write_payload]. unfold byteLength.
    set (k := key h) in *. set (v := value h) in *.
    rewrite (i32_small (off + Z.of_nat (length k))) by lia.
    rewrite (i32_small (Z.of_nat (length k) + 1)) by lia.
    rewrite (i32_small (off + (Z.of_nat (length k) + 1))) by lia.
    rewrite (i32_small (Z.of_nat (length v) + 1)) by lia.
    rewrite (i32_small (off + (Z.of_nat (length k) + 1) + Z.of_nat (length v))) by lia.
    rewrite (i32_small (off + (Z.of_nat (length k) + 1) + (Z.of_nat (length v) + 1))) by lia.
    rewrite !subarray_inside by lia.
    replace (length (k ++ [x00] ++ v ++ [x00] ++ payload hs))
      with (length k + (1 + (length v + (1 + length (payload hs)))))%nat
      by (len_norm; lia).
    rewrite !replicate_add. cbn [replicate]. rewrite <- !app_assoc.
    rewrite copy_bytes_app; cbn [byteOffset viewLength]; try lia.
    cbn [mbind option_bind].
    replace (pre ++ k ++ [x00] ++ replicate (length v) x00 ++
               [x00] ++ replicate (length (payload hs)) x00 ++ post)
      with ((pre ++ k ++ [x00]) ++ replicate (length v) x00 ++
               [x00] ++ replicate (length (payload hs)) x00 ++ post)
      by (rewrite <- !app_assoc; reflexivity).
    rewrite copy_bytes_app; cbn [byteOffset viewLength]; len_norm; try lia.
    cbn [mbind option_bind].
    replace ((pre ++ k ++ [x00]) ++ v ++ [x00] ++
               replicate (length (payload hs)) x00 ++ post)
      with ((pre ++ k ++ [x00] ++ v ++ [x00]) ++
               replicate (length (payload hs)) x00 ++ post)
      by (rewrite <- !app_assoc; reflexivity).
    rewrite IH; len_norm; try lia.
    rewrite <- !app_assoc. reflexivity.
Qed.

Lemma div4_mul n : 4 * n / 4 = n.
Proof. rewrite Z.mul_comm. apply Z.div_mul. lia. Qed.

Lemma store_u32_head (post : list byte) (b0 b1 b2 b3 : byte) (x : Z) :
  store_u32 ([b0; b1; b2; b3] ++ post) 0 x = u32_bytes x ++ post.
Proof. exact (store_u32_app [] post b0 b1 b2 b3 0 x eq_refl). Qed.

Hypothesis BLOCK_MAXSIZE_i32 : BLOCK_MAXSIZE < 2 ^ 31.

Lemma serializeHeaders_layout (headers : Headers) :
  encodedSize headers <= BLOCK_MAXSIZE ->
  serializeHeaders headers = Some (layout headers).
Proof.
  intros Hsize.
  pose proof (encodedSize_lower headers) as Hlow.
  pose proof (length_payload headers) as Hpay.
  unfold serializeHeaders, new_ArrayBuffer.
  rewrite pairsSize_exact by lia. rewrite u32_small by lia.
  destruct (BLOCK_MAXSIZE <? encodedSize headers) eqn:E; [apply Z.ltb_lt in E; lia|].
  cbn [mbind option_bind].
  rewrite (i32_small (1 + 2 * Z.of_nat (length headers))) by lia.
  replace (Z.to_nat (encodedSize headers))
    with (4 + (8 * length headers + length (payload headers)))%nat by lia.
  rewrite !replicate_add.
  unfold Uint32Array_wrap. cbn [Z.ltb Z.compare orb].
  unfold byteLength. rewrite !length_app, !length_replicate.
  change (0 mod 4 =? 0) with true. cbn [negb orb].
  destruct (Z.of_nat (4 + (8 * length headers + length (payload headers))) <? 0) eqn:E0;
    [apply Z.ltb_lt in E0; lia|].
  destruct (1 + 2 * Z.of_nat (length headers) <? 0) eqn:E1; [apply Z.ltb_lt in E1; lia|].
  destruct (Z.of_nat (4 + (8 * length headers + length (payload headers)))
            <? 0 + 4 * (1 + 2 * Z.of_nat (length headers))) eqn:E2;
    [apply Z.ltb_lt in E2; lia|].
  cbn [orb mbind option_bind]. unfold Uint32Array_set. cbn [viewLength byteOffset].
  rewrite div4_mul.
  rewrite (true_andb_leb_ltb 0) by lia. cbn [mbind option_bind].
  change (replicate 4 x00) with ([x00; x00; x00; x00]).
  change (0 + 4 * 0) with 0. rewrite store_u32_head.
  rewrite write_sizes_app; cbn [viewLength byteOffset];
    rewrite ?length_u32_bytes; try lia.
  2:{ rewrite div4_mul. lia. }
  cbn [mbind option_bind]. unfold Uint8Array_wrap, byteLength.
  rewrite !length_app, length_u32_bytes, length_sizes_table, length_replicate.
  destruct (4 * (1 + 2 * Z.of_nat (length headers)) <? 0) eqn:E3;
    [apply Z.ltb_lt in E3; lia|].
  destruct (Z.of_nat (4 + (8 * length headers + length (payload headers)))
            <? 4 * (1 + 2 * Z.of_nat (length headers))) eqn:E4;
    [apply Z.ltb_lt in E4; lia|].
  cbn [orb mbind option_bind].
  replace (u32_bytes (Z.of_nat (length headers)) ++ sizes_table headers ++
           replicate (length (payload headers)) x00)
    with ((u32_bytes (Z.of_nat (length headers)) ++ sizes_table headers) ++
           replicate (length (payload headers)) x00 ++ [])
    by (rewrite app_nil_r, <- app_assoc; reflexivity).
  rewrite write_payload_app; cbn [viewLength byteOffset];
    rewrite ?length_app, ?length_u32_bytes, ?length_sizes_table; try lia.
  unfold layout. rewrite app_nil_r, <- app_assoc. reflexivity.
Qed.

Lemma lookup_app_add {A} (pre l : list A) (k : nat) :
  (pre ++ l) !! (length pre + k)%nat = l !! k.
Proof. rewrite lookup_app_r by lia. f_equal. lia. Qed.

Lemma Uint32Array_get_app (v : View) (idx : Z) (pre post : list byte) (x : Z) :
  0 <= idx < viewLength v / 4 ->
  byteOffset v + 4 * idx = Z.of_nat (length pre) ->
  0 <= x < 2 ^ 32 ->
  Uint32Array_get v idx (pre ++ u32_bytes x ++ post) = Some x.
Proof.
  intros Hidx Hpre Hx. unfold Uint32Array_get.
  rewrite (true_andb_leb_ltb idx) by lia. rewrite Hpre, Nat2Z.id.
  rewrite <- (Nat.add_0_r (length pre)) at 1.
  rewrite !lookup_app_add. cbn [u32_bytes app lookup list_lookup mbind option_bind].
  rewrite u32_of_bytes_u32_bytes by lia. reflexivity.
Qed.

Lemma slice_app (pre mid post : list byte) (b e : Z) :
  b = Z.of_nat (length pre) ->
  e = Z.of_nat (length pre) + Z.of_nat (length mid) ->
  slice (pre ++ mid ++ post) b e = mid.
Proof.
  intros -> ->. unfold slice, clamp_index, byteLength. len_norm.
  destruct (Z.of_nat (length pre) <? 0) eqn:E1; [apply Z.ltb_lt in E1; lia|].
  destruct (Z.of_nat (length pre) + Z.of_nat (length mid) <? 0) eqn:E2;
    [apply Z.ltb_lt in E2; lia|].
  rewrite !Nat2Z.inj_add.
  rewrite Z.min_l by lia. rewrite Z.min_l by lia.
  rewrite Nat2Z.id, drop_app_length.
  replace (Z.to_nat (Z.max (Z.of_nat (length pre) + Z.of_nat (length mid)
                            - Z.of_nat (length pre)) 0)) with (length mid) by lia.
  apply take_app_length.
Qed.

Lemma slice_within (l pre mid post : list byte) (b e : Z) :
  l = pre ++ mid ++ post ->
  b = Z.of_nat (length pre) ->
  e = Z.of_nat (length pre) + Z.of_nat (length mid) ->
  slice l b e = mid.
Proof. intros ->. apply slice_app. Qed.

Lemma sizes_table_cons h hs :
  sizes_table (h :: hs)
  = u32_bytes (byteLength (key h)) ++ u32_bytes (byteLength (value h)) ++ sizes_table hs.
Proof. unfold sizes_table. cbn [flat_map]. rewrite <- !app_assoc. reflexivity. Qed.

Lemma deserialize_loop_app (hs : Headers) :
  forall (hd rest dpre : list byte) (sizes : View) (sizeIndex dataIndex : Z),
    byteOffset sizes + 4 * sizeIndex = Z.of_nat (length hd) ->
    0 <= sizeIndex ->
    sizeIndex + 2 * Z.of_nat (length hs) <= viewLength sizes / 4 ->
    viewLength sizes < 2 ^ 31 ->
    dataIndex = Z.of_nat (length dpre) ->
    Z.of_nat (length (dpre ++ payload hs)) < 2 ^ 31 ->
    deserialize_loop (length hs) sizes (hd ++ sizes_table hs ++ rest)
      (dpre ++ payload hs) sizeIndex dataIndex = Some hs.
Proof.
  induction hs as [|h hs IH]; intros hd rest dpre sizes sizeIndex dataIndex
    Hhd Hsi Hfit Hsmall Hdi Hlen.
  - reflexivity.
  - destruct h as [k v]. cbn [length] in Hfit.
    rewrite payload_cons, sizes_table_cons in *. cbn [key value] in *.
    len_norm_in Hlen. unfold byteLength.
    pose proof (Z.mul_div_le (viewLength sizes) 4 ltac:(lia)) as Hdiv.
    cbn [length deserialize_loop].
    rewrite <- !app_assoc.
    rewrite (Uint32Array_get_app sizes sizeIndex hd) by lia.
    cbn [mbind option_bind].
    rewrite (u32_small (Z.of_nat (length k) + 1)) by lia.
    rewrite (i32_small (sizeIndex + 1)) by lia.
    rewrite (i32_small (dataIndex + Z.of_nat (length k))) by lia.
    rewrite (i32_small (dataIndex + (Z.of_nat (length k) + 1))) by lia.
    replace (hd ++ u32_bytes (Z.of_nat (length k)) ++ u32_bytes (Z.of_nat (length v))
                ++ sizes_table hs ++ rest)
      with ((hd ++ u32_bytes (Z.of_nat (length k))) ++ u32_bytes (Z.of_nat (length v))
                ++ sizes_table hs ++ rest)
      by (rewrite <- !app_assoc; reflexivity).
    rewrite (Uint32Array_get_app sizes (sizeIndex + 1)) by (len_norm; lia).
    cbn [mbind option_bind].
    rewrite (u32_small (Z.of_nat (length v) + 1)) by lia.
    rewrite (i32_small (sizeIndex + 1 + 1)) by lia.
    rewrite (i32_small (dataIndex + (Z.of_nat (length k) + 1) + Z.of_nat (length v)))
      by lia.
    rewrite (i32_small (dataIndex + (Z.of_nat (length k) + 1) + (Z.of_nat (length v) + 1)))
      by lia.
    rewrite (slice_app dpre k) by lia.
    rewrite (slice_within _ (dpre ++ k ++ [x00]) v ([x00] ++ payload hs))
      by first [ rewrite <- !app_assoc; reflexivity | len_norm; lia ].
    replace ((hd ++ u32_bytes (Z.of_nat (length k))) ++ u32_bytes (Z.of_nat (length v))
                ++ sizes_table hs ++ rest)
      with ((hd ++ u32_bytes (Z.of_nat (length k)) ++ u32_bytes (Z.of_nat (length v)))
                ++ sizes_table hs ++ rest)
      by (rewrite <- !app_assoc; reflexivity).
    replace (dpre ++ k ++ [x00] ++ v ++ [x00] ++ payload hs)
      with ((dpre ++ k ++ [x00] ++ v ++ [x00]) ++ payload hs)
      by (rewrite <- !app_assoc; reflexivity).
    rewrite IH; [reflexivity | len_norm; lia | lia | lia | lia | len_norm; lia
                | len_norm; lia].
Qed.

Lemma deserializeHeaders_layout (headers : Headers) :
  encodedSize headers <= BLOCK_MAXSIZE ->
  deserializeHeaders (layout headers) = Some headers.
Proof.
  intros Hsize.
  pose proof (encodedSize_lower headers) as Hlow.
  pose proof (length_payload headers) as Hpay.
  pose proof (length_layout headers) as Hlay.
  set (n := Z.of_nat (length headers)) in *.
  unfold deserializeHeaders, Uint32Array_wrap.
  unfold byteLength. rewrite Hlay.
  change (0 <? 0) with false. change (0 mod 4 =? 0) with true.
  change (4 <? 0) with false. change (4 mod 4 =? 0) with true.
  change (1 <? 0) with false. cbn [negb orb].
  destruct (encodedSize headers <? 0) eqn:E0; [apply Z.ltb_lt in E0; lia|].
  destruct (encodedSize headers <? 0 + 4 * 1) eqn:E1; [apply Z.ltb_lt in E1; lia|].
  cbn [orb mbind option_bind].
  assert (Hget : Uint32Array_get {| byteOffset := 0; viewLength := 4 * 1 |} 0
                   (layout headers) = Some n).
  { unfold layout.
    apply (Uint32Array_get_app _ 0 [] _ n); cbn [byteOffset viewLength length];
      try (change (4 * 1 / 4) with 1); lia. }
  rewrite Hget. cbn [mbind option_bind].
  rewrite (u32_small (2 * n)) by lia.
  rewrite (u32_small (1 + 2 * n)) by lia.
  rewrite (u32_small (4 * (1 + 2 * n))) by lia.
  rewrite (i32_small (2 * n)) by lia.
  rewrite (i32_small (4 * (1 + 2 * n))) by lia.
  destruct (encodedSize headers <? 4) eqn:E2; [apply Z.ltb_lt in E2; lia|].
  destruct (2 * n <? 0) eqn:E3; [apply Z.ltb_lt in E3; lia|].
  destruct (encodedSize headers <? 4 + 4 * (2 * n)) eqn:E4; [apply Z.ltb_lt in E4; lia|].
  cbn [orb mbind option_bind].
  assert (Hdata : slice (layout headers) (4 * (1 + 2 * n)) BLOCK_MAXSIZE
                  = payload headers).
  { unfold slice, clamp_index, byteLength. rewrite Hlay.
    destruct (4 * (1 + 2 * n) <? 0) eqn:E5; [apply Z.ltb_lt in E5; lia|].
    destruct (BLOCK_MAXSIZE <? 0) eqn:E6; [apply Z.ltb_lt in E6; lia|].
    rewrite (Z.min_l (4 * (1 + 2 * n))) by lia. rewrite (Z.min_r BLOCK_MAXSIZE) by lia.
    unfold layout. rewrite app_assoc.
    rewrite drop_app_length' by (len_norm; lia).
    apply take_ge. lia. }
  rewrite Hdata. unfold n. rewrite Nat2Z.id.
  apply (deserialize_loop_app headers (u32_bytes (Z.of_nat (length headers)))
           (payload headers) []);
    cbn [byteOffset viewLength length app]; len_norm; rewrite ?div4_mul; lia.
Qed.

(** ** The header codec: round trip and layout *)

(** C1. Every list of headers whose encoding fits an [ArrayBuffer] is
    encoded by [serializeHeaders], and [deserializeHeaders] gives the list
    back from the encoding: the same pairs, in the same order. The empty
    list and empty keys and values are not special. *)
Theorem serializeHeaders_deserializeHeaders (headers : Headers) :
  encodedSize headers <= BLOCK_MAXSIZE ->
  exists encoding,
    serializeHeaders headers = Some encoding
    /\ deserializeHeaders encoding = Some headers.
Proof.
  intros Hfit. exists (layout headers).
  split; [apply serializeHeaders_layout | apply deserializeHeaders_layout]; exact Hfit.
Qed.

(** C2 (as the code has it). The two headers x-a: 1 and x-b: (empty
    value) are encoded as the count 2, the table of lengths [3, 1, 3, 0] and
    the payload x-a 0 1 0 x-b 0 0 (each 0 one zero byte): every key and
    value is followed by one zero byte that its length does not count.
    Decoding gives the list back. *)
Theorem serializeHeaders_scenario :
  31 <= BLOCK_MAXSIZE ->
  serializeHeaders scenario_headers = Some (scenario_encoding [3; 1; 3; 0])
  /\ deserializeHeaders (scenario_encoding [3; 1; 3; 0]) = Some scenario_headers.
Proof.
  intros Hfit.
  assert (Hsize : encodedSize scenario_headers <= BLOCK_MAXSIZE)
    by (change (encodedSize scenario_headers) with 31; exact Hfit).
  change (scenario_encoding [3; 1; 3; 0]) with (layout scenario_headers).
  split; [apply serializeHeaders_layout | apply deserializeHeaders_layout]; exact Hsize.
Qed.

(** ** Facts about [Map] *)

Lemma Map_has_cons {K V} `{EqDecision K} (m : Map K V) (k k' : K) (v : V) :
  Map_has ((k', v) :: m) k = if decide (k' = k) then true else Map_has m k.
Proof.
  unfold Map_has. cbn [fmap list_fmap fst].
  destruct (decide (k' = k)) as [->|Hne].
  - apply bool_decide_eq_true. left.
  - apply bool_decide_ext. rewrite elem_of_cons.
    split; [intros [Heq|Hin]; [congruence | exact Hin] | intros Hin; right; exact Hin].
Qed.

Lemma Map_has_get {K V} `{EqDecision K} (m : Map K V) (k : K) :
  Map_has m k = true <-> exists v, Map_get m k = Some v.
Proof.
  induction m as [|[k' v'] m IH].
  - cbn. split; [discriminate | intros [v Hv]; discriminate].
  - rewrite Map_has_cons. cbn [Map_get]. destruct (decide (k' = k)); [|exact IH].
    split; eauto.
Qed.

Lemma Map_has_false_get {K V} `{EqDecision K} (m : Map K V) (k : K) :
  Map_has m k = false <-> Map_get m k = None.
Proof.
  split; intros H1.
  - destruct (Map_get m k) as [v|] eqn:E; [|reflexivity].
    assert (Map_has m k = true) by (apply Map_has_get; eauto). congruence.
  - destruct (Map_has m k) eqn:E; [|reflexivity].
    apply Map_has_get in E as [v Hv]. congruence.
Qed.

Lemma Map_get_set_eq {K V} `{EqDecision K} (m : Map K V) (k : K) (v : V) :
  Map_get (Map_set m k v) k = Some v.
Proof.
  induction m as [|[k' v'] m IH]; cbn [Map_set Map_get].
  - rewrite decide_True; reflexivity.
  - destruct (decide (k' = k)) as [->|Hne]; cbn [Map_get].
    + rewrite decide_True; reflexivity.
    + rewrite decide_False by assumption. exact IH.
Qed.

Lemma Map_get_set_ne {K V} `{EqDecision K} (m : Map K V) (k k0 : K) (v : V) :
  k <> k0 -> Map_get (Map_set m k v) k0 = Map_get m k0.
Proof.
  intros Hne. induction m as [|[k' v'] m IH]; cbn [Map_set Map_get].
  - rewrite decide_False by assumption. reflexivity.
  - destruct (decide (k' = k)) as [->|Hne']; cbn [Map_get].
    + rewrite !decide_False by assumption. reflexivity.
    + destruct (decide (k' = k0)); [reflexivity | exact IH].
Qed.

Lemma Map_has_set_eq {K V} `{EqDecision K} (m : Map K V) (k : K) (v : V) :
  Map_has (Map_set m k v) k = true.
Proof. apply Map_has_get. exists v. apply Map_get_set_eq. Qed.

Lemma Map_set_fresh {K V} `{EqDecision K} (m : Map K V) (k : K) (v : V) :
  Map_has m k = false -> Map_set m k v = m ++ [(k, v)].
Proof.
  induction m as [|[k' v'] m IH]; intros Hf; [reflexivity|].
  rewrite Map_has_cons in Hf. cbn [Map_set app].
  destruct (decide (k' = k)); [discriminate|]. rewrite IH by assumption. reflexivity.
Qed.

Lemma Map_has_app {K V} `{EqDecision K} (m1 m2 : Map K V) (k : K) :
  Map_has (m1 ++ m2) k = Map_has m1 k || Map_has m2 k.
Proof.
  induction m1 as [|[k' v'] m1 IH]; [reflexivity|].
  cbn [app]. rewrite !Map_has_cons. destruct (decide (k' = k)); [reflexivity | exact IH].
Qed.

Lemma Map_has_delete {K V} `{EqDecision K} (m : Map K V) (k : K) :
  Map_has (Map_delete m k) k = false.
Proof.
  induction m as [|[k' v'] m IH]; [reflexivity|].
  cbn [Map_delete]. destruct (decide (k' = k)) as [->|Hne]; [exact IH|].
  rewrite Map_has_cons, decide_False by assumption. exact IH.
Qed.


(** ** Running the monad *)

Ltac run :=
  cbv [mbind M_bind mret M_ret throw get_world modify emit log lift_RangeError
       add_events load store alloc this_RootContext Map_get_or_throw getRootContext
       set_events set_heap set_context_map set_memory
       set_globalArrayBufferReference set_root_context_factory_map];
  cbn [events heap context_map memory globalArrayBufferReference
       root_context_factory_map returned final].

Ltac run_in H :=
  cbv [mbind M_bind mret M_ret throw get_world modify emit log lift_RangeError
       add_events load store alloc this_RootContext Map_get_or_throw getRootContext
       set_events set_heap set_context_map set_memory
       set_globalArrayBufferReference set_root_context_factory_map] in H;
  cbn [events heap context_map memory globalArrayBufferReference
       root_context_factory_map returned final] in H.

Lemma toArrayBuffer_run (w : World) :
  toArrayBuffer w
  = if size (globalArrayBufferReference w) =? 0 then Ret [] w
    else Ret (memory w (buffer (globalArrayBufferReference w)))
           (add_events [free (buffer (globalArrayBufferReference w))] w).
Proof.
  unfold toArrayBuffer. cbv [mbind M_bind get_world].
  destruct (size (globalArrayBufferReference w) =? 0); reflexivity.
Qed.

Lemma call_with_globalArrayBufferReference_run (host : HostBuffer) (w : World) :
  call_with_globalArrayBufferReference host w = Ret (hb_result host) (host_stores host w).
Proof. reflexivity. Qed.

Lemma is_Ok_false (c : WasmResultValues.t) :
  c <> WasmResultValues.Ok -> WasmResultValues.is_Ok c = false.
Proof. destruct c; [congruence | reflexivity ..]. Qed.


(** C10. When the import answers anything but [Ok], [get_header_map_value],
    [get_header_map_flat_pairs] and [get_buffer_bytes] return a zero-length
    buffer, and so they do when the import answers [Ok] with a value of size
    zero: the caller sees the same result in both cases. *)
Theorem getters_return_empty_on_failure (host : HostBuffer) (typ : Z) (key : ArrayBuffer)
    (start length : Z) (w : World) :
  hb_result host <> WasmResultValues.Ok ->
  returned (get_header_map_value host typ key w) = Some []
  /\ returned (get_header_map_flat_pairs host typ w) = Some []
  /\ returned (get_buffer_bytes host typ start length w) = Some []
  /\ forall ptr, 
       let empty := {| hb_result := WasmResultValues.Ok; hb_stored := Some (ptr, 0, []) |} in
       returned (get_header_map_value empty typ key w) = Some []
       /\ returned (get_header_map_flat_pairs empty typ w) = Some []
       /\ returned (get_buffer_bytes empty typ start length w) = Some [].
Proof.
  intros Hfail.
  apply is_Ok_false in Hfail.
  unfold get_header_map_value, get_header_map_flat_pairs, get_buffer_bytes.
  cbv [mbind M_bind]. rewrite !call_with_globalArrayBufferReference_run, Hfail.
  repeat split; reflexivity.
Qed.

Lemma toArrayBuffer_Ret (w : World) :
  exists w',
    toArrayBuffer w = Ret (converted w) w'
    /\ globalArrayBufferReference w' = globalArrayBufferReference w
    /\ memory w' = memory w /\ heap w' = heap w /\ context_map w' = context_map w
    /\ root_context_factory_map w' = root_context_factory_map w
    /\ events w'
       = events w ++ (if size (globalArrayBufferReference w) =? 0 then []
                      else [free (buffer (globalArrayBufferReference w))]).
Proof.
  rewrite toArrayBuffer_run. unfold converted.
  destruct (size (globalArrayBufferReference w) =? 0).
  - exists w. rewrite app_nil_r. repeat split.
  - eexists. split; [reflexivity|]. repeat split.
Qed.


Lemma get_plugin_root_id_run (host : HostBuffer) (w : World) :
  get_plugin_root_id host w
  = if WasmResultValues.is_Ok (hb_result host)
    then Ret (root_id_of (converted (host_stores host w)))
           (final (toArrayBuffer (host_stores host w)))
    else Abort ":("
           (add_events
              [proxy_log LogLevelValues.critical
                 (toString (WasmResultValues.to_Z (hb_result host)))]
              (host_stores host w)).
Proof.
  unfold get_plugin_root_id, get_property, CHECK_RESULT.
  cbv [mbind M_bind]. rewrite call_with_globalArrayBufferReference_run.
  destruct (WasmResultValues.is_Ok (hb_result host)); [|reflexivity].
  cbv [mret M_ret].
  destruct (toArrayBuffer_Ret (host_stores host w)) as (w' & -> & _).
  unfold root_id_of. cbn [final].
  destruct (byteLength (converted (host_stores host w)) =? 0); reflexivity.
Qed.

Lemma host_stores_frame (host : HostBuffer) (w : World) :
  heap (host_stores host w) = heap w
  /\ context_map (host_stores host w) = context_map w
  /\ root_context_factory_map (host_stores host w) = root_context_factory_map w
  /\ events (host_stores host w) = events w.
Proof. unfold host_stores. destruct (hb_stored host) as [[[p s] b]|]; repeat split. Qed.

Lemma converted_host_stores_events (host : HostBuffer) (es : list Event) (w : World) :
  converted (host_stores host (set_events es w)) = converted (host_stores host w).
Proof. unfold converted, host_stores. destruct (hb_stored host) as [[[p s] b]|]; reflexivity. Qed.

(** What [get_plugin_root_id] returns does not depend on the log, and it
    touches neither the registry nor the heap. *)
Lemma get_plugin_root_id_events (host : HostBuffer) (es : list Event) (w : World) :
  returned (get_plugin_root_id host (set_events es w))
  = returned (get_plugin_root_id host w).
Proof.
  rewrite !get_plugin_root_id_run.
  destruct (WasmResultValues.is_Ok (hb_result host)); [|reflexivity].
  cbn [returned]. rewrite converted_host_stores_events. reflexivity.
Qed.

Lemma get_plugin_root_id_frame (host : HostBuffer) (w : World) :
  let w' := final (get_plugin_root_id host w) in
  heap w' = heap w /\ context_map w' = context_map w
  /\ root_context_factory_map w' = root_context_factory_map w
  /\ exists es, events w' = events w ++ es /\ quiet es.
Proof.
  cbv zeta. rewrite get_plugin_root_id_run.
  destruct (host_stores_frame host w) as (Hh & Hc & Hf & He).
  destruct (WasmResultValues.is_Ok (hb_result host)); cbn [final].
  - destruct (toArrayBuffer_Ret (host_stores host w))
      as (w' & -> & _ & _ & Hh' & Hc' & Hf' & He').
    cbn [final]. rewrite Hh', Hc', Hf', He', Hh, Hc, Hf, He. repeat split.
    eexists. split; [reflexivity|].
    destruct (size (globalArrayBufferReference (host_stores host w)) =? 0); reflexivity.
  - unfold add_events. cbn [heap context_map root_context_factory_map events set_events].
    rewrite Hh, Hc, Hf, He. repeat split. eexists. split; reflexivity.
Qed.

(** ** The registry *)


Lemma filter_quiet (es : list Event) :
  quiet es ->
  List.filter is_call_createContext_ es = [] /\ List.filter is_call_cb es = []
  /\ List.filter is_call_factory es = [].
Proof.
  unfold quiet. induction es as [|e es IH]; intros Hq; [repeat split|].
  cbn [forallb] in Hq. apply andb_true_iff in Hq as [He Hq]. specialize (IH Hq).
  destruct e; cbn in He; try discriminate;
    cbn [List.filter is_call_createContext_ is_call_cb is_call_factory]; exact IH.
Qed.

Lemma logs_quiet (es : list Event) : forallb is_proxy_log es = true -> quiet es.
Proof.
  unfold quiet. induction es as [|e es IH]; intros Hl; [reflexivity|].
  cbn [forallb] in *. apply andb_true_iff in Hl as [He Hl]. rewrite (IH Hl).
  destruct e; cbn in He; try discriminate; reflexivity.
Qed.

(** An id that is registered: [ensureRootContext] returns what the registry
    holds and only writes log lines. *)
Lemma ensureRootContext_hit (host : HostBuffer) (id : Z) (w : World) (r : loc) :
  Map_get (context_map w) id = Some r ->
  exists w',
    ensureRootContext host id w = Ret r w'
    /\ heap w' = heap w /\ context_map w' = context_map w
    /\ root_context_factory_map w' = root_context_factory_map w
    /\ exists es, events w' = events w ++ es /\ forallb is_proxy_log es = true.
Proof.
  intros Hget.
  assert (Hhas : Map_has (context_map w) id = true) by (apply Map_has_get; eauto).
  unfold ensureRootContext. run. rewrite Hhas. run. rewrite Hget.
  eexists. split; [reflexivity|]. cbn [heap context_map root_context_factory_map events].
  repeat split. eexists. rewrite <- !app_assoc. split; reflexivity.
Qed.

(** What a returning [ensureRootContext] leaves behind. *)
Lemma ensureRootContext_Ret (host : HostBuffer) (id : Z) (w w1 : World) (r : loc) :
  ensureRootContext host id w = Ret r w1 ->
  Map_get (context_map w1) id = Some r
  /\ (exists extra, heap w1 = heap w ++ extra)
  /\ (forall k, Map_has (context_map w) k = true ->
        Map_get (context_map w1) k = Map_get (context_map w) k)
  /\ (exists es, events w1 = events w ++ es
                 /\ List.filter is_call_createContext_ es = []
                 /\ List.filter is_call_cb es = []).
Proof.
  destruct (Map_has (context_map w) id) eqn:Hhas.
  - apply Map_has_get in Hhas as [r0 Hget].
    destruct (ensureRootContext_hit host id w r0 Hget) as (w' & -> & Hh & Hc & _ & es & He & Hq).
    intros [= <- <-]. rewrite Hc, Hh. split; [assumption|].
    split; [exists []; rewrite app_nil_r; reflexivity|].
    split; [reflexivity|]. exists es. split; [assumption|].
    destruct (filter_quiet es (logs_quiet es Hq)) as (H1 & H2 & _). split; assumption.
  - unfold ensureRootContext. run. rewrite Hhas. run.
    match goal with |- context [get_plugin_root_id host ?W] =>
      pose proof (get_plugin_root_id_frame host W) as Hfr;
      destruct (get_plugin_root_id host W) as [root_id w2 | m w2]
    end; [|discriminate].
    cbv zeta in Hfr. cbn [final heap context_map root_context_factory_map events] in Hfr.
    destruct Hfr as (Hh & Hc & Hf & es & He & Hq).
    destruct (Map_has (root_context_factory_map w2) root_id) eqn:Hfac; cbn [negb];
      [|discriminate].
    destruct (Map_get (root_context_factory_map w2) root_id) as [f|]; [|discriminate].
    intros [= <- <-]. cbn [heap context_map events].
    rewrite Hh, Hc, He. split; [apply Map_get_set_eq|].
    split.
    { eexists. rewrite insert_app_r_0. reflexivity. }
    split.
    { intros k Hk. apply Map_get_set_ne. intros ->. congruence. }
    eexists. rewrite <- !app_assoc. split; [reflexivity|].
    destruct (filter_quiet es Hq) as (H1 & H2 & _).
    cbn [app List.filter is_call_createContext_ is_call_cb].
    rewrite !List.filter_app, H1, H2. split; reflexivity.
Qed.

(** C8. An id that is not registered, under a plugin root name for which no
    factory is registered: [ensureRootContext] throws, and the message names
    the missing factory. Nothing is registered or created. *)
Theorem ensureRootContext_missing_factory (host : HostBuffer) (id : Z) (w : World)
    (root_id : string) :
  Map_has (context_map w) id = false ->
  returned (get_plugin_root_id host w) = Some root_id ->
  Map_has (root_context_factory_map w) root_id = false ->
  exists w',
    ensureRootContext host id w
    = Abort ("Missing root context factory for root id: " +:+ root_id) w'
    /\ context_map w' = context_map w /\ heap w' = heap w.
Proof.
  intros Hhas Hroot Hfac.
  unfold ensureRootContext. run. rewrite Hhas. run.
  match goal with |- context [get_plugin_root_id host ?W] =>
    assert (HW : returned (get_plugin_root_id host W) = Some root_id)
      by exact (eq_trans (get_plugin_root_id_events host _ w) Hroot);
    pose proof (get_plugin_root_id_frame host W) as Hfr;
    destruct (get_plugin_root_id host W) as [s w2 | m w2]
  end; [|discriminate].
  cbn [returned] in HW. injection HW as ->.
  cbv zeta in Hfr. cbn [final heap context_map root_context_factory_map events] in Hfr.
  destruct Hfr as (Hh & Hc & Hf & _).
  rewrite Hf, Hfac. cbn [negb].
  eexists. split; [reflexivity|]. cbn [context_map heap]. split; assumption.
Qed.

(** C6. Once [ensureRootContext] has returned a root context for an id,
    calling it again with that id (whatever the host would answer) returns
    the same object, creates nothing, leaves the registry as it is, and does
    not call a factory: it only writes log lines. *)
Theorem ensureRootContext_idempotent (host1 host2 : HostBuffer) (id : Z)
    (w w1 : World) (r : loc) :
  ensureRootContext host1 id w = Ret r w1 ->
  exists w2,
    ensureRootContext host2 id w1 = Ret r w2
    /\ heap w2 = heap w1
    /\ context_map w2 = context_map w1
    /\ exists es, events w2 = events w1 ++ es
                  /\ List.filter is_call_factory es = []
                  /\ forallb is_proxy_log es = true.
Proof.
  intros Hfirst. apply ensureRootContext_Ret in Hfirst as (Hget & _).
  assert (Hhas : Map_has (context_map w1) id = true) by (apply Map_has_get; eauto).
  unfold ensureRootContext. run. rewrite Hhas. run. rewrite Hget.
  eexists. split; [reflexivity|]. cbn [heap context_map events].
  repeat split. eexists. rewrite <- !app_assoc. repeat split.
Qed.




(** ** The pending http calls *)

Lemma httpCall_cases (host : HostHttpCall) (this : loc) (cluster : string)
    (headers : Headers) (body : ArrayBuffer) (trailers : Headers)
    (timeout_milliseconds : Z) (origin : loc) (f : Z) (w : World) (r : RootContext) :
  heap w !! this = Some (OfRootContext r) ->
  exists w' es,
    match serializeHeaders headers, serializeHeaders trailers with
    | Some _, Some _ =>
        httpCall host this cluster headers body trailers timeout_milliseconds
          origin f w = Ret (hc_result host) w'
        /\ heap w'
           = if WasmResultValues.is_Ok (hc_result host)
             then with_http_calls_ this r
                    (Map_set (http_calls_ r) (hc_token host) (pending origin f)) (heap w)
             else heap w
    | _, _ =>
        httpCall host this cluster headers body trailers timeout_milliseconds
          origin f w = Abort "RangeError" w'
        /\ heap w' = heap w
    end
    /\ events w' = events w ++ es /\ quiet es
    /\ context_map w' = context_map w.
Proof.
  intros Hthis. unfold httpCall. run. rewrite Hthis. run.
  destruct (serializeHeaders headers) as [hp|]; run.
  2:{ eexists _, _. split; [split; reflexivity|]. cbn [events context_map].
      split; [reflexivity|]. split; reflexivity. }
  destruct (serializeHeaders trailers) as [tp|]; run.
  2:{ eexists _, _. split; [split; reflexivity|]. cbn [events context_map].
      split; [reflexivity|]. split; reflexivity. }
  destruct (WasmResultValues.is_Ok (hc_result host)); run.
  - rewrite Hthis. run. eexists _, _. split; [split; reflexivity|].
    cbn [events context_map]. rewrite <- !app_assoc.
    split; [reflexivity|]. split; reflexivity.
  - eexists _, _. split; [split; reflexivity|].
    cbn [events context_map]. rewrite <- !app_assoc.
    split; [reflexivity|]. split; reflexivity.
Qed.

(** C4. On a root context, with headers and trailers whose encodings fit an
    [ArrayBuffer], [httpCall] returns the status of the boundary call. When
    that status is [Ok] the table maps the token to the originating context
    and the continuation; for any other status the table, the heap and the
    registry are what they were. *)
Theorem httpCall_stores_iff_Ok (host : HostHttpCall) (this : loc) (cluster : string)
    (headers : Headers) (body : ArrayBuffer) (trailers : Headers)
    (timeout_milliseconds : Z) (origin : loc) (f : Z) (w : World) (r : RootContext) :
  heap w !! this = Some (OfRootContext r) ->
  encodedSize headers <= BLOCK_MAXSIZE ->
  encodedSize trailers <= BLOCK_MAXSIZE ->
  exists w',
    httpCall host this cluster headers body trailers timeout_milliseconds origin f w
    = Ret (hc_result host) w'
    /\ (hc_result host = WasmResultValues.Ok ->
        exists m, http_calls_at w' this = Some m
                  /\ m = Map_set (http_calls_ r) (hc_token host) (pending origin f)
                  /\ Map_get m (hc_token host) = Some (pending origin f))
    /\ (hc_result host <> WasmResultValues.Ok ->
        http_calls_at w' this = Some (http_calls_ r)
        /\ heap w' = heap w /\ context_map w' = context_map w).
Proof.
  intros Hthis Hh Ht.
  destruct (httpCall_cases host this cluster headers body trailers timeout_milliseconds
              origin f w r Hthis) as (w' & es & Hcases & _ & _ & Hc).
  rewrite (serializeHeaders_layout headers Hh), (serializeHeaders_layout trailers Ht)
    in Hcases.
  destruct Hcases as [Hrun Hheap]. exists w'. split; [exact Hrun|]. split.
  - intros HOk. rewrite HOk in Hheap. cbn [WasmResultValues.is_Ok] in Hheap.
    eexists. split; [|split; [reflexivity|apply Map_get_set_eq]].
    unfold http_calls_at, with_http_calls_ in *. rewrite Hheap.
    rewrite list_lookup_insert_eq by (eapply lookup_lt_Some; eassumption).
    reflexivity.
  - intros Hfail. rewrite (is_Ok_false _ Hfail) in Hheap.
    unfold http_calls_at. rewrite Hheap, Hthis. repeat split; assumption.
Qed.

(** C5. A response for a token that has a pending call invokes the
    continuation registered for that token, once, with the originating
    context and the handles of the response, and the entry is gone from the
    table. A response for a token without pending call invokes nothing: one
    line is logged at level [error], the call returns normally, and the
    table and the heap are as they were. *)
Theorem onHttpCallResponse_correlates (this : loc) (token headers body_size trailers : Z)
    (w : World) (r : RootContext) :
  heap w !! this = Some (OfRootContext r) ->
  (forall c, Map_get (http_calls_ r) token = Some c ->
             is_Some (heap w !! origin_context c)) ->
  exists w' es,
    onHttpCallResponse this token headers body_size trailers w = Ret tt w'
    /\ events w' = events w ++ es
    /\ match Map_get (http_calls_ r) token with
       | Some c =>
           cb_events es
           = [call_cb (cb c) (origin_context c) headers body_size trailers]
           /\ http_calls_at w' this = Some (Map_delete (http_calls_ r) token)
           /\ Map_has (Map_delete (http_calls_ r) token) token = false
       | None =>
           cb_events es = []
           /\ In (proxy_log LogLevelValues.error
                    ("onHttpCallResponse: Token " +:+ toString token +:+ " not found."))
                es
           /\ http_calls_at w' this = Some (http_calls_ r)
           /\ heap w' = heap w
       end.
Proof.
  intros Hthis Horigin. unfold onHttpCallResponse. run. rewrite Hthis. run.
  destruct (Map_get (http_calls_ r) token) as [c|] eqn:Hget.
  - assert (Hhas : Map_has (http_calls_ r) token = true) by (apply Map_has_get; eauto).
    rewrite Hhas. run.
    destruct (Horigin c eq_refl) as [origin Ho]. rewrite Ho. run. rewrite Hthis. run.
    eexists _, _. split; [reflexivity|]. cbn [events heap].
    rewrite <- !app_assoc. split; [reflexivity|].
    split; [reflexivity|]. split; [|apply Map_has_delete].
    unfold http_calls_at. cbn [heap].
    rewrite list_lookup_insert_eq by (eapply lookup_lt_Some; eassumption).
    reflexivity.
  - assert (Hhas : Map_has (http_calls_ r) token = false) by (apply Map_has_false_get; exact Hget).
    rewrite Hhas. run.
    eexists _, _. split; [reflexivity|]. cbn [events heap].
    rewrite <- !app_assoc. split; [reflexivity|].
    split; [reflexivity|]. split.
    + cbn [app In]. do 4 right. left. reflexivity.
    + unfold http_calls_at. cbn [heap]. rewrite Hthis. split; reflexivity.
Qed.

Lemma cancel_callbacks_run (callbacks : list HttpCallback) (w : World) :
  cancel_callbacks callbacks w = Ret tt (add_events (map cancellation callbacks) w).
Proof.
  revert w. induction callbacks as [|c cs IH]; intros w.
  - cbn [cancel_callbacks map]. run. rewrite app_nil_r. destruct w; reflexivity.
  - cbn [cancel_callbacks map]. run. rewrite IH. run.
    rewrite <- app_assoc. reflexivity.
Qed.

Lemma visit_keys_run (keys : list Z) (w : World) : visit_keys keys w = Ret tt w.
Proof. induction keys as [|k ks IH]; [reflexivity | exact IH]. Qed.

Lemma cb_events_cancellations (cs : list HttpCallback) :
  cb_events (map cancellation cs) = map cancellation cs.
Proof. induction cs as [|c cs IH]; [reflexivity|]. cbn. unfold cb_events in IH. rewrite IH. reflexivity. Qed.

(** [onDone] on a root context: every pending call is cancelled, in the
    order of the table, and the table is cleared. *)
Lemma onDone_run (this : loc) (w : World) (r : RootContext) :
  heap w !! this = Some (OfRootContext r) ->
  exists w' es,
    onDone this w = Ret true w'
    /\ events w' = events w ++ es
    /\ cb_events es = map cancellation (Map_values (http_calls_ r))
    /\ heap w' = with_http_calls_ this r [] (heap w)
    /\ context_map w' = context_map w.
Proof.
  intros Hthis. unfold onDone, cancelPendingRequests. run. rewrite Hthis. run.
  rewrite Hthis. run. rewrite cancel_callbacks_run. run. rewrite Hthis. run.
  rewrite visit_keys_run. run. rewrite Hthis. run.
  eexists _, _. split; [reflexivity|]. cbn [events heap context_map].
  rewrite <- !app_assoc. split; [reflexivity|].
  split; [|split; reflexivity].
  cbn [app cb_events List.filter is_call_cb].
  change (List.filter is_call_cb (map cancellation (Map_values (http_calls_ r))))
    with (cb_events (map cancellation (Map_values (http_calls_ r)))).
  apply cb_events_cancellations.
Qed.

Lemma Map_values_entries (calls : list HttpCallArgs) :
  map cancellation (Map_values (map entry_of calls))
  = map (fun c => call_cb (a_cb c) (a_origin_context c) 0 0 0) calls.
Proof.
  unfold Map_values. induction calls as [|c cs IH]; [reflexivity|].
  cbn [map fmap list_fmap] in *. rewrite IH. reflexivity.
Qed.

Lemma Map_has_entries (calls : list HttpCallArgs) (token : Z) :
  token ∉ map (fun c => hc_token (a_host c)) calls ->
  Map_has (map entry_of calls) token = false.
Proof.
  induction calls as [|c cs IH]; intros Hnot; [reflexivity|].
  cbn [map] in *. unfold entry_of at 1. rewrite Map_has_cons.
  apply not_elem_of_cons in Hnot as [Hne Hnot].
  rewrite decide_False by congruence. apply IH. exact Hnot.
Qed.

(** Calls that were all accepted, under tokens that are pairwise distinct
    and not pending yet, are appended to the table in the order of issue. *)
Lemma httpCalls_table (this : loc) (calls : list HttpCallArgs) :
  forall (w w1 : World) (r : RootContext) (results : list WasmResultValues.t),
    heap w !! this = Some (OfRootContext r) ->
    httpCalls this calls w = Ret results w1 ->
    Forall (fun c => c = WasmResultValues.Ok) results ->
    NoDup (map (fun c => hc_token (a_host c)) calls) ->
    (forall c, c ∈ calls -> Map_has (http_calls_ r) (hc_token (a_host c)) = false) ->
    length results = length calls
    /\ heap w1 !! this
       = Some (OfRootContext (set_http_calls_ (http_calls_ r ++ map entry_of calls) r)).
Proof.
  induction calls as [|c cs IH]; intros w w1 r results Hthis Hrun HOk Hnodup Hfresh.
  - cbn [httpCalls] in Hrun. run_in Hrun. injection Hrun as <- <-.
    cbn [map]. rewrite app_nil_r. destruct r; split; [reflexivity | exact Hthis].
  - cbn [httpCalls] in Hrun. cbv [mbind M_bind] in Hrun.
    destruct (httpCall_cases (a_host c) this (a_cluster c) (a_headers c) (a_body c)
                (a_trailers c) (a_timeout_milliseconds c) (a_origin_context c) (a_cb c)
                w r Hthis) as (w' & es & Hcases & _).
    destruct (serializeHeaders (a_headers c)) as [hp|];
      [destruct (serializeHeaders (a_trailers c)) as [tp|]|];
      destruct Hcases as [Hcall Hheap]; rewrite Hcall in Hrun; try discriminate.
    destruct (httpCalls this cs w') as [rs w''|] eqn:Hrest; [|discriminate].
    cbv [mret M_ret] in Hrun. injection Hrun as <- <-.
    apply Forall_cons in HOk as [HOk HOks]. rewrite HOk in Hheap.
    cbn [WasmResultValues.is_Ok] in Hheap.
    rewrite Map_set_fresh in Hheap by (apply Hfresh; left).
    cbn [map] in Hnodup. apply NoDup_cons in Hnodup as [Hnotin Hnodup].
    assert (Hthis' : heap w' !! this
                     = Some (OfRootContext
                               (set_http_calls_ (http_calls_ r ++ [entry_of c]) r))).
    { rewrite Hheap. unfold with_http_calls_.
      apply list_lookup_insert_eq. eapply lookup_lt_Some; eassumption. }
    destruct (IH w' w'' _ rs Hthis' Hrest HOks Hnodup) as [Hlen Hfinal].
    { intros c' Hc'. cbn [http_calls_ set_http_calls_].
      rewrite Map_has_app, (Hfresh c') by (right; exact Hc'). cbn [orb].
      unfold entry_of. rewrite Map_has_cons. cbn [Map_has]. 
      rewrite decide_False; [reflexivity|].
      intros Heq. apply Hnotin. rewrite Heq.
      apply (list_elem_of_fmap_2 (fun c => hc_token (a_host c))). exact Hc'. }
    split; [cbn [length]; congruence|].
    rewrite Hfinal. cbn [http_calls_ set_http_calls_ map].
    rewrite <- app_assoc. reflexivity.
Qed.

(** C3. On a root context without pending calls, [N] calls are issued and
    each is accepted (every [httpCall] returns [Ok]), under tokens that are
    pairwise distinct; then [onDone] runs before any response. It returns,
    the continuations it invokes are exactly those of the [N] calls, each
    once and in the order of issue, each with the handles [0, 0, 0], and the
    table is empty afterwards. *)
Theorem onDone_cancels_every_pending_call (this : loc) (calls : list HttpCallArgs)
    (w w1 : World) (r : RootContext) (results : list WasmResultValues.t) :
  heap w !! this = Some (OfRootContext r) ->
  http_calls_ r = [] ->
  httpCalls this calls w = Ret results w1 ->
  Forall (fun c => c = WasmResultValues.Ok) results ->
  NoDup (map (fun c => hc_token (a_host c)) calls) ->
  exists w2 es,
    onDone this w1 = Ret true w2
    /\ events w2 = events w1 ++ es
    /\ cb_events es = map (fun c => call_cb (a_cb c) (a_origin_context c) 0 0 0) calls
    /\ length (cb_events es) = length calls
    /\ http_calls_at w2 this = Some [].
Proof.
  intros Hthis Hempty Hrun HOk Hnodup.
  destruct (httpCalls_table this calls w w1 r results Hthis Hrun HOk Hnodup)
    as [_ Hthis1].
  { intros c _. rewrite Hempty. reflexivity. }
  rewrite Hempty in Hthis1. cbn [app] in Hthis1.
  destruct (onDone_run this w1 _ Hthis1) as (w2 & es & Hdone & Hev & Hcb & Hheap & _).
  exists w2, es. split; [exact Hdone|]. split; [exact Hev|].
  cbn [http_calls_ set_http_calls_] in Hcb. rewrite Map_values_entries in Hcb.
  split; [exact Hcb|]. split; [rewrite Hcb; apply length_map|].
  unfold http_calls_at. rewrite Hheap. unfold with_http_calls_.
  rewrite list_lookup_insert_eq by (eapply lookup_lt_Some; eassumption).
  reflexivity.
Qed.

(** ** More about the header codec *)

(** X1. The buffer [serializeHeaders] returns is as long as [pairsSize]
    says: four bytes for the count and, for each header, eight bytes of
    lengths, the key, the value and two sentinel bytes. *)
Theorem serializeHeaders_byteLength (headers : Headers) :
  encodedSize headers <= BLOCK_MAXSIZE ->
  exists encoding,
    serializeHeaders headers = Some encoding
    /\ byteLength encoding = pairsSize headers
    /\ pairsSize headers
       = 4 + foldr (fun h acc => 10 + byteLength (key h) + byteLength (value h) + acc)
               0 headers.
Proof.
  intros Hfit. exists (layout headers).
  split; [apply serializeHeaders_layout; exact Hfit|].
  rewrite pairsSize_exact by lia. unfold byteLength at 1. rewrite length_layout.
  split; [reflexivity|]. unfold encodedSize. f_equal.
  clear Hfit. induction headers as [|h hs IH]; [reflexivity|].
  cbn [foldr]. rewrite IH. unfold pairBytes. lia.
Qed.

(** X2. A list whose encoding is larger than the largest [ArrayBuffer]
    (and still an [i32]) is not encoded: the allocation raises. *)
Theorem serializeHeaders_too_large (headers : Headers) :
  BLOCK_MAXSIZE < encodedSize headers ->
  encodedSize headers < 2 ^ 31 ->
  serializeHeaders headers = None.
Proof.
  intros Hbig Hi32. pose proof (encodedSize_lower headers).
  unfold serializeHeaders, new_ArrayBuffer.
  rewrite pairsSize_exact by lia. rewrite u32_small by lia.
  destruct (BLOCK_MAXSIZE <? encodedSize headers) eqn:E; [reflexivity|].
  apply Z.ltb_ge in E. lia.
Qed.

(** X3. The encoding is injective: two lists that fit and have the same
    encoding are the same list. *)
Theorem serializeHeaders_injective (headers1 headers2 : Headers) :
  encodedSize headers1 <= BLOCK_MAXSIZE ->
  encodedSize headers2 <= BLOCK_MAXSIZE ->
  serializeHeaders headers1 = serializeHeaders headers2 ->
  headers1 = headers2.
Proof.
  intros H1 H2 Heq.
  rewrite (serializeHeaders_layout headers1 H1), (serializeHeaders_layout headers2 H2) in Heq.
  assert (Hl : layout headers1 = layout headers2) by congruence.
  pose proof (deserializeHeaders_layout headers1 H1) as D1.
  pose proof (deserializeHeaders_layout headers2 H2) as D2.
  rewrite Hl in D1. congruence.
Qed.

Lemma deserializeHeaders_lt_4 (buf : ArrayBuffer) :
  byteLength buf < 4 -> deserializeHeaders buf = None.
Proof.
  intros Hshort. unfold deserializeHeaders, Uint32Array_wrap.
  change (0 <? 0) with false. change (0 mod 4 =? 0) with true.
  change (1 <? 0) with false.
  assert (E1 : (byteLength buf <? 0) = false)
    by (apply Z.ltb_ge; unfold byteLength; lia).
  assert (E2 : (byteLength buf <? 0 + 4 * 1) = true) by (apply Z.ltb_lt; lia).
  rewrite E1, E2. reflexivity.
Qed.

(** X4. A buffer of fewer than four bytes, the empty buffer included, is
    not decoded: reading the count raises. *)
Theorem deserializeHeaders_short_buffer (buf : ArrayBuffer) :
  byteLength buf < 4 ->
  deserializeHeaders buf = None.
Proof. exact (deserializeHeaders_lt_4 buf). Qed.

Lemma payload_with_cons (f : HeaderPair * (byte * byte)) fs :
  payload_with (f :: fs)
  = key (fst f) ++ [fst (snd f)] ++ value (fst f) ++ [snd (snd f)] ++ payload_with fs.
Proof. unfold payload_with. cbn [flat_map]. rewrite <- !app_assoc. reflexivity. Qed.

Lemma length_payload_with (fs : list (HeaderPair * (byte * byte))) :
  length (payload_with fs) = length (payload (map fst fs)).
Proof.
  induction fs as [|f fs IH]; [reflexivity|].
  cbn [map]. rewrite payload_with_cons, payload_cons. len_norm. rewrite IH. lia.
Qed.

Lemma deserialize_loop_framed (fs : list (HeaderPair * (byte * byte))) :
  forall (hd rest dpre dpost : list byte) (sizes : View) (sizeIndex dataIndex : Z),
    byteOffset sizes + 4 * sizeIndex = Z.of_nat (length hd) ->
    0 <= sizeIndex ->
    sizeIndex + 2 * Z.of_nat (length fs) <= viewLength sizes / 4 ->
    viewLength sizes < 2 ^ 31 ->
    dataIndex = Z.of_nat (length dpre) ->
    Z.of_nat (length (dpre ++ payload_with fs)) < 2 ^ 31 ->
    deserialize_loop (length fs) sizes (hd ++ sizes_table (map fst fs) ++ rest)
      (dpre ++ payload_with fs ++ dpost) sizeIndex dataIndex = Some (map fst fs).
Proof.
  induction fs as [|f fs IH]; intros hd rest dpre dpost sizes sizeIndex dataIndex
    Hhd Hsi Hfit Hsmall Hdi Hlen.
  - reflexivity.
  - destruct f as [[k v] [s1 s2]]. cbn [length] in Hfit. cbn [map fst].
    rewrite payload_with_cons, sizes_table_cons in *. cbn [key value fst snd] in *.
    len_norm_in Hlen. unfold byteLength.
    pose proof (Z.mul_div_le (viewLength sizes) 4 ltac:(lia)) as Hdiv.
    cbn [length deserialize_loop].
    rewrite <- !app_assoc.
    rewrite (Uint32Array_get_app sizes sizeIndex hd) by lia.
    cbn [mbind option_bind].
    rewrite (u32_small (Z.of_nat (length k) + 1)) by lia.
    rewrite (i32_small (sizeIndex + 1)) by lia.
    rewrite (i32_small (dataIndex + Z.of_nat (length k))) by lia.
    rewrite (i32_small (dataIndex + (Z.of_nat (length k) + 1))) by lia.
    replace (hd ++ u32_bytes (Z.of_nat (length k)) ++ u32_bytes (Z.of_nat (length v))
                ++ sizes_table (map fst fs) ++ rest)
      with ((hd ++ u32_bytes (Z.of_nat (length k))) ++ u32_bytes (Z.of_nat (length v))
                ++ sizes_table (map fst fs) ++ rest)
      by (rewrite <- !app_assoc; reflexivity).
    rewrite (Uint32Array_get_app sizes (sizeIndex + 1)) by (len_norm; lia).
    cbn [mbind option_bind].
    rewrite (u32_small (Z.of_nat (length v) + 1)) by lia.
    rewrite (i32_small (sizeIndex + 1 + 1)) by lia.
    rewrite (i32_small (dataIndex + (Z.of_nat (length k) + 1) + Z.of_nat (length v)))
      by lia.
    rewrite (i32_small (dataIndex + (Z.of_nat (length k) + 1) + (Z.of_nat (length v) + 1)))
      by lia.
    rewrite (slice_app dpre k) by lia.
    rewrite (slice_within _ (dpre ++ k ++ [s1]) v ([s2] ++ payload_with fs ++ dpost))
      by first [ rewrite <- !app_assoc; reflexivity | len_norm; lia ].
    replace ((hd ++ u32_bytes (Z.of_nat (length k))) ++ u32_bytes (Z.of_nat (length v))
                ++ sizes_table (map fst fs) ++ rest)
      with ((hd ++ u32_bytes (Z.of_nat (length k)) ++ u32_bytes (Z.of_nat (length v)))
                ++ sizes_table (map fst fs) ++ rest)
      by (rewrite <- !app_assoc; reflexivity).
    replace (dpre ++ k ++ [s1] ++ v ++ [s2] ++ payload_with fs ++ dpost)
      with ((dpre ++ k ++ [s1] ++ v ++ [s2]) ++ payload_with fs ++ dpost)
      by (rewrite <- !app_assoc; reflexivity).
    rewrite IH; [reflexivity | len_norm; lia | lia | lia | lia | len_norm; lia
                | len_norm; lia].
Qed.

(** X5. The decoder reads the count and the table of lengths and cuts the
    payload by them; it does not look at the byte that follows a key or a
    value, nor at what follows the last value. Whatever those bytes are, the
    headers come out the same. *)
Theorem deserializeHeaders_ignores_sentinels_and_tail
    (framed : list (HeaderPair * (byte * byte))) (extra : list byte) :
  encodedSize (map fst framed) + byteLength extra <= BLOCK_MAXSIZE ->
  deserializeHeaders
    (u32_bytes (Z.of_nat (length (map fst framed))) ++ sizes_table (map fst framed)
     ++ payload_with framed ++ extra)
  = Some (map fst framed).
Proof.
  intros Hsize. set (headers := map fst framed) in *.
  pose proof (encodedSize_lower headers) as Hlow.
  pose proof (length_payload headers) as Hpay.
  pose proof (length_payload_with framed) as Hpw. fold headers in Hpw.
  set (buf := u32_bytes (Z.of_nat (length headers)) ++ sizes_table headers
              ++ payload_with framed ++ extra).
  assert (Hlay : Z.of_nat (length buf) = encodedSize headers + byteLength extra).
  { unfold buf, byteLength. len_norm. lia. }
  set (n := Z.of_nat (length headers)) in *.
  unfold byteLength in Hsize.
  unfold deserializeHeaders, Uint32Array_wrap.
  unfold byteLength. rewrite Hlay. unfold byteLength.
  change (0 <? 0) with false. change (0 mod 4 =? 0) with true.
  change (4 <? 0) with false. change (4 mod 4 =? 0) with true.
  change (1 <? 0) with false. cbn [negb orb].
  destruct (encodedSize headers + Z.of_nat (length extra) <? 0) eqn:E0;
    [apply Z.ltb_lt in E0; lia|].
  destruct (encodedSize headers + Z.of_nat (length extra) <? 0 + 4 * 1) eqn:E1;
    [apply Z.ltb_lt in E1; lia|].
  cbn [orb mbind option_bind].
  assert (Hget : Uint32Array_get {| byteOffset := 0; viewLength := 4 * 1 |} 0 buf = Some n).
  { unfold buf.
    apply (Uint32Array_get_app _ 0 [] _ n); cbn [byteOffset viewLength length];
      try (change (4 * 1 / 4) with 1); lia. }
  rewrite Hget. cbn [mbind option_bind].
  rewrite (u32_small (2 * n)) by lia.
  rewrite (u32_small (1 + 2 * n)) by lia.
  rewrite (u32_small (4 * (1 + 2 * n))) by lia.
  rewrite (i32_small (2 * n)) by lia.
  rewrite (i32_small (4 * (1 + 2 * n))) by lia.
  destruct (encodedSize headers + Z.of_nat (length extra) <? 4) eqn:E2;
    [apply Z.ltb_lt in E2; lia|].
  destruct (2 * n <? 0) eqn:E3; [apply Z.ltb_lt in E3; lia|].
  destruct (encodedSize headers + Z.of_nat (length extra) <? 4 + 4 * (2 * n)) eqn:E4;
    [apply Z.ltb_lt in E4; lia|].
  cbn [orb mbind option_bind].
  assert (Hdata : slice buf (4 * (1 + 2 * n)) BLOCK_MAXSIZE = payload_with framed ++ extra).
  { unfold slice, clamp_index, byteLength. rewrite Hlay. unfold byteLength.
    destruct (4 * (1 + 2 * n) <? 0) eqn:E5; [apply Z.ltb_lt in E5; lia|].
    destruct (BLOCK_MAXSIZE <? 0) eqn:E6; [apply Z.ltb_lt in E6; lia|].
    rewrite (Z.min_l (4 * (1 + 2 * n))) by lia. rewrite (Z.min_r BLOCK_MAXSIZE) by lia.
    unfold buf. rewrite app_assoc.
    rewrite drop_app_length' by (len_norm; lia).
    apply take_ge. len_norm. lia. }
  rewrite Hdata. subst n. rewrite Nat2Z.id.
  assert (Hn : length headers = length framed) by apply length_map.
  pose proof (deserialize_loop_framed framed (u32_bytes (Z.of_nat (length headers)))
                (payload_with framed ++ extra) [] extra
                {| byteOffset := 4; viewLength := 4 * (2 * Z.of_nat (length headers)) |}
                0 0) as Hloop.
  rewrite <- Hn in Hloop. unfold buf.
  apply Hloop; cbn [byteOffset viewLength length app]; len_norm; rewrite ?div4_mul; lia.
Qed.




(** ** More about the getters and setters *)

Lemma getter_run (host : HostBuffer) (w : World) :
  (result ← call_with_globalArrayBufferReference host;
   if WasmResultValues.is_Ok result then toArrayBuffer else mret []) w
  = if WasmResultValues.is_Ok (hb_result host)
    then toArrayBuffer (host_stores host w)
    else Ret [] (host_stores host w).
Proof.
  cbv [mbind M_bind]. rewrite call_with_globalArrayBufferReference_run.
  destruct (WasmResultValues.is_Ok (hb_result host)); reflexivity.
Qed.

(** X7. [get_header_map_pairs] has no empty answer for a failure: when the
    import answers anything but [Ok], or answers with a value of size zero,
    the flat pairs are the empty buffer, decoding it raises, and the call
    ends the run with a [RangeError] instead of returning an empty list.
    Nothing is logged and nothing is freed. *)
Theorem get_header_map_pairs_aborts_on_failure (host : HostBuffer) (typ : Z) (w : World) :
  hb_result host <> WasmResultValues.Ok
  \/ (exists ptr block, hb_stored host = Some (ptr, 0, block)) ->
  exists w',
    get_header_map_pairs host typ w = Abort "RangeError" w'
    /\ events w' = events w.
Proof.
  intros Hcase. unfold get_header_map_pairs, get_header_map_flat_pairs.
  unfold mbind at 1. unfold M_bind at 1. rewrite getter_run.
  destruct (host_stores_frame host w) as (_ & _ & _ & Hev).
  assert (Hdec : deserializeHeaders [] = None)
    by (apply deserializeHeaders_lt_4; reflexivity).
  destruct Hcase as [Hfail | (ptr & block & Hst)].
  - rewrite (is_Ok_false _ Hfail), Hdec. run. eexists. split; [reflexivity | exact Hev].
  - destruct (WasmResultValues.is_Ok (hb_result host)).
    + rewrite toArrayBuffer_run. unfold host_stores at 1. rewrite Hst.
      cbn [globalArrayBufferReference set_globalArrayBufferReference size].
      change (0 =? 0) with true. cbv iota. rewrite Hdec. run.
      eexists. split; [reflexivity | exact Hev].
    + rewrite Hdec. run. eexists. split; [reflexivity | exact Hev].
Qed.

(** X8. When the host answers [Ok] and stores the encoding of a list of
    headers, [get_header_map_pairs] returns that list and hands the host's
    block to [free] once. *)
Theorem get_header_map_pairs_of_encoding (headers : Headers) (encoding : ArrayBuffer)
    (ptr typ : Z) (w : World) :
  encodedSize headers <= BLOCK_MAXSIZE ->
  serializeHeaders headers = Some encoding ->
  exists w',
    get_header_map_pairs
      {| hb_result := WasmResultValues.Ok;
         hb_stored := Some (ptr, byteLength encoding, encoding) |} typ w
    = Ret headers w'
    /\ events w' = events w ++ [free ptr].
Proof.
  intros Hfit Henc.
  rewrite (serializeHeaders_layout headers Hfit) in Henc. injection Henc as <-.
  pose proof (length_layout headers) as Hlen. pose proof (encodedSize_lower headers) as Hlow.
  unfold get_header_map_pairs, get_header_map_flat_pairs.
  unfold mbind at 1. unfold M_bind at 1. rewrite getter_run.
  cbn [hb_result WasmResultValues.is_Ok]. rewrite toArrayBuffer_run.
  unfold host_stores. cbn [hb_stored].
  cbn [globalArrayBufferReference set_globalArrayBufferReference size buffer memory
       set_memory].
  destruct (byteLength (layout headers) =? 0) eqn:E;
    [apply Z.eqb_eq in E; unfold byteLength in E; lia|].
  rewrite Z.eqb_refl, (deserializeHeaders_layout headers Hfit). run.
  eexists. split; reflexivity.
Qed.

(** X9. The three getters hand a block to [free] exactly when the import
    answered [Ok] with a size other than zero, and then once, the block the
    host stored, which is also what they return. After a failure, and after
    an answer of size zero, the block the host may have stored is neither
    returned nor freed. *)
Theorem getters_free_exactly_on_success (host : HostBuffer) (typ : Z) (key : ArrayBuffer)
    (start length : Z) (w : World) (ptr sz : Z) (block : list byte) :
  hb_stored host = Some (ptr, sz, block) ->
  (returned (get_header_map_value host typ key w)
   = Some (if WasmResultValues.is_Ok (hb_result host) && negb (sz =? 0) then block else [])
   /\ events (final (get_header_map_value host typ key w))
      = events w
        ++ (if WasmResultValues.is_Ok (hb_result host) && negb (sz =? 0)
            then [free ptr] else []))
  /\ (returned (get_header_map_flat_pairs host typ w)
      = Some (if WasmResultValues.is_Ok (hb_result host) && negb (sz =? 0) then block else [])
      /\ events (final (get_header_map_flat_pairs host typ w))
         = events w
           ++ (if WasmResultValues.is_Ok (hb_result host) && negb (sz =? 0)
               then [free ptr] else []))
  /\ (returned (get_buffer_bytes host typ start length w)
      = Some (if WasmResultValues.is_Ok (hb_result host) && negb (sz =? 0) then block else [])
      /\ events (final (get_buffer_bytes host typ start length w))
         = events w
           ++ (if WasmResultValues.is_Ok (hb_result host) && negb (sz =? 0)
               then [free ptr] else [])).
Proof.
  intros Hst.
  unfold get_header_map_value, get_header_map_flat_pairs, get_buffer_bytes.
  rewrite getter_run.
  destruct (WasmResultValues.is_Ok (hb_result host)); cbn [andb].
  - rewrite toArrayBuffer_run. unfold host_stores. rewrite Hst.
    cbn [globalArrayBufferReference set_globalArrayBufferReference size buffer memory
         set_memory].
    destruct (sz =? 0); cbn [negb returned final events set_globalArrayBufferReference
                             set_memory add_events set_events].
    + rewrite app_nil_r. repeat split.
    + rewrite Z.eqb_refl. repeat split.
  - unfold host_stores. rewrite Hst.
    cbn [returned final events set_globalArrayBufferReference set_memory].
    rewrite app_nil_r. repeat split.
Qed.

(** X10. [set_header_map_pairs] hands the host the encoding of the headers,
    a buffer that decodes to them. If the host accepts it, the call returns
    and leaves the module as it was; if not, one line with the status is
    logged at level [critical] and the run ends. *)
Theorem set_header_map_pairs_hands_over_the_encoding
    (host : Z -> ArrayBuffer -> WasmResultValues.t) (typ : Z) (headers : Headers)
    (w : World) :
  encodedSize headers <= BLOCK_MAXSIZE ->
  exists encoding,
    serializeHeaders headers = Some encoding
    /\ deserializeHeaders encoding = Some headers
    /\ set_header_map_pairs host typ headers w
       = if WasmResultValues.is_Ok (host typ encoding) then Ret tt w
         else Abort ":("
                (add_events
                   [proxy_log LogLevelValues.critical
                      (toString (WasmResultValues.to_Z (host typ encoding)))] w).
Proof.
  intros Hfit. exists (layout headers).
  split; [apply serializeHeaders_layout; exact Hfit|].
  split; [apply deserializeHeaders_layout; exact Hfit|].
  unfold set_header_map_pairs, set_header_map_flat_pairs, CHECK_RESULT.
  rewrite (serializeHeaders_layout headers Hfit). run.
  destruct (WasmResultValues.is_Ok (host typ (layout headers))); reflexivity.
Qed.

(** ** More about the registry *)

Lemma filter_if_free (f : Event -> bool) (c : bool) (p : Z) :
  f (free p) = false -> List.filter f (if c then [] else [free p]) = [].
Proof. intros Hf. destruct c; cbn [List.filter]; rewrite ?Hf; reflexivity. Qed.

(** [ensureRootContext] on an id that is not registered, case by case: the
    property cannot be read; no factory under the name read; a factory. *)
Lemma ensureRootContext_miss (host : HostBuffer) (id : Z) (w : World) :
  Map_has (context_map w) id = false ->
  match returned (get_plugin_root_id host w) with
  | None =>
      exists w' es,
        ensureRootContext host id w = Abort ":(" w'
        /\ heap w' = heap w /\ context_map w' = context_map w
        /\ events w' = events w ++ es /\ quiet es
        /\ In (proxy_log LogLevelValues.critical
                 (toString (WasmResultValues.to_Z (hb_result host)))) es
  | Some root_id =>
      match Map_get (root_context_factory_map w) root_id with
      | None =>
          exists w' es,
            ensureRootContext host id w
            = Abort ("Missing root context factory for root id: " +:+ root_id) w'
            /\ heap w' = heap w /\ context_map w' = context_map w
            /\ events w' = events w ++ es /\ quiet es
      | Some f =>
          exists w' es,
            ensureRootContext host id w = Ret (length (heap w)) w'
            /\ heap w' = heap w ++ [OfRootContext (set_context_id id (f id))]
            /\ context_map w' = Map_set (context_map w) id (length (heap w))
            /\ root_context_factory_map w' = root_context_factory_map w
            /\ events w' = events w ++ es
            /\ List.filter is_call_factory es = [call_factory root_id id]
            /\ List.filter is_call_createContext_ es = []
            /\ List.filter is_call_cb es = []
      end
  end.
Proof.
  intros Hhas. unfold ensureRootContext. run. rewrite Hhas. run.
  match goal with |- context [get_plugin_root_id host ?W] =>
    set (W0 := W);
    assert (HW : W0 = set_events (events W0) w) by reflexivity
  end.
  assert (Hconv : converted (host_stores host W0) = converted (host_stores host w))
    by (rewrite HW; apply converted_host_stores_events).
  destruct (host_stores_frame host W0) as (Hh0 & Hc0 & Hf0 & He0).
  cbn [heap context_map root_context_factory_map events W0] in Hh0, Hc0, Hf0, He0.
  rewrite !get_plugin_root_id_run.
  destruct (WasmResultValues.is_Ok (hb_result host)); cbn [returned].
  - destruct (toArrayBuffer_Ret (host_stores host W0))
      as (w1 & -> & _ & _ & Hh1 & Hc1 & Hf1 & He1).
    cbn [final]. rewrite Hconv. set (root_id := root_id_of (converted (host_stores host w))).
    rewrite Hf1, Hf0.
    destruct (Map_get (root_context_factory_map w) root_id) as [f|] eqn:Hfac.
    + assert (Hhf : Map_has (root_context_factory_map w) root_id = true)
        by (apply Map_has_get; eauto).
      rewrite Hhf. cbn [negb]. rewrite Hh1, Hh0, Hc1, Hc0, He1, He0.
      eexists _, _. split; [reflexivity|].
      cbn [heap context_map root_context_factory_map events].
      split; [rewrite insert_app_r_0; reflexivity|]. split; [reflexivity|]. split; [reflexivity|].
      rewrite <- !app_assoc. split; [reflexivity|].
      cbn [app List.filter is_call_factory is_call_createContext_ is_call_cb].
      rewrite !List.filter_app, !filter_if_free by reflexivity.
      repeat split.
    + assert (Hhf : Map_has (root_context_factory_map w) root_id = false)
        by (apply Map_has_false_get; exact Hfac).
      rewrite Hhf. cbn [negb]. eexists _, _. split; [reflexivity|].
      cbn [heap context_map events]. rewrite Hh1, Hh0, Hc1, Hc0, He1, He0.
      split; [reflexivity|]. split; [reflexivity|].
      rewrite <- !app_assoc. split; [reflexivity|].
      unfold quiet. cbn [app forallb]. rewrite forallb_app.
      destruct (size (globalArrayBufferReference (host_stores host W0)) =? 0); reflexivity.
  - eexists _, _. split; [reflexivity|].
    unfold add_events. cbn [heap context_map events set_events].
    rewrite Hh0, Hc0, He0. split; [reflexivity|]. split; [reflexivity|].
    rewrite <- !app_assoc. split; [reflexivity|]. split; [reflexivity|].
    cbn [app In]. do 2 right. left. reflexivity.
Qed.

Lemma ensureContext_split (host : HostBuffer) (context_id root_context_id : Z) (w : World) :
  exists W,
    W = set_events (events W) w
    /\ (exists es, events W = events w ++ es /\ forallb is_proxy_log es = true)
    /\ ensureContext host context_id root_context_id w
       = match ensureRootContext host root_context_id W with
         | Ret root_context w' =>
             ensureContext_after_root context_id root_context_id root_context w'
         | Abort message w' => Abort message w'
         end.
Proof.
  eexists. split; [|split]; cycle 2.
  - unfold ensureContext. run. reflexivity.
  - reflexivity.
  - cbn [events]. eexists. rewrite <- !app_assoc. split; reflexivity.
Qed.

(** The second half of [ensureContext], case by case. *)
Lemma ensureContext_after_root_run (context_id root_context_id : Z) (root_context : loc)
    (w : World) :
  if Map_has (context_map w) context_id then
    exists w' es,
      ensureContext_after_root context_id root_context_id root_context w = Ret tt w'
      /\ heap w' = heap w /\ context_map w' = context_map w
      /\ events w' = events w ++ es /\ forallb is_proxy_log es = true
  else
    match heap w !! root_context with
    | Some (OfRootContext self) =>
        exists w' es,
          ensureContext_after_root context_id root_context_id root_context w = Ret tt w'
          /\ heap w'
             = heap w ++ [OfContext (createContext_ self root_context context_id)]
          /\ context_map w' = Map_set (context_map w) context_id (length (heap w))
          /\ events w' = events w ++ es
          /\ List.filter is_call_createContext_ es
             = [call_createContext_ root_context context_id]
          /\ List.filter is_call_factory es = []
          /\ List.filter is_call_cb es = []
    | Some (OfContext _) =>
        exists w',
          ensureContext_after_root context_id root_context_id root_context w
          = Abort "not a RootContext" w'
    | None =>
        exists w',
          ensureContext_after_root context_id root_context_id root_context w
          = Abort "invalid reference" w'
    end.
Proof.
  unfold ensureContext_after_root. run.
  destruct (Map_has (context_map w) context_id); run.
  - eexists _, _. split; [reflexivity|]. cbn [heap context_map events]. repeat split.
  - destruct (heap w !! root_context) as [[self|c]|]; run.
    + eexists _, _. split; [reflexivity|]. cbn [heap context_map events].
      rewrite <- !app_assoc. repeat split.
    + eexists. reflexivity.
    + eexists. reflexivity.
Qed.

Lemma Map_get_delete_other {K V} `{EqDecision K} (m : Map K V) (k k0 : K) :
  k <> k0 -> Map_get (Map_delete m k) k0 = Map_get m k0.
Proof.
  intros Hne. induction m as [|[k' v'] m IH]; [reflexivity|].
  cbn [Map_delete Map_get]. destruct (decide (k' = k)) as [->|Hne'].
  - rewrite decide_False by assumption. exact IH.
  - cbn [Map_get]. destruct (decide (k' = k0)); [reflexivity | exact IH].
Qed.

Lemma Map_delete_absent {K V} `{EqDecision K} (m : Map K V) (k : K) :
  Map_has m k = false -> Map_delete m k = m.
Proof.
  induction m as [|[k' v'] m IH]; intros Hf; [reflexivity|].
  rewrite Map_has_cons in Hf. cbn [Map_delete].
  destruct (decide (k' = k)); [discriminate|]. rewrite IH by assumption. reflexivity.
Qed.

Lemma Map_set_set_eq {K V} `{EqDecision K} (m : Map K V) (k : K) (v1 v2 : V) :
  Map_set (Map_set m k v1) k v2 = Map_set m k v2.
Proof.
  induction m as [|[k' v'] m IH]; cbn [Map_set].
  - rewrite decide_True by reflexivity. reflexivity.
  - destruct (decide (k' = k)) as [->|Hne]; cbn [Map_set].
    + rewrite decide_True by reflexivity. reflexivity.
    + rewrite decide_False by assumption. rewrite IH. reflexivity.
Qed.

Lemma Map_keys_set {K V} `{EqDecision K} (m : Map K V) (k : K) (v : V) :
  Map_keys (Map_set m k v) = if Map_has m k then Map_keys m else Map_keys m ++ [k].
Proof.
  induction m as [|[k' v'] m IH]; [reflexivity|].
  rewrite Map_has_cons. cbn [Map_set]. destruct (decide (k' = k)) as [->|Hne].
  - reflexivity.
  - unfold Map_keys in *. cbn [fmap list_fmap fst]. rewrite IH.
    destruct (Map_has m k); reflexivity.
Qed.

Lemma get_plugin_root_id_independent (host : HostBuffer) (w1 w2 : World) :
  globalArrayBufferReference w1 = globalArrayBufferReference w2 ->
  memory w1 = memory w2 ->
  returned (get_plugin_root_id host w1) = returned (get_plugin_root_id host w2).
Proof.
  intros Hs Hm. rewrite !get_plugin_root_id_run.
  destruct (WasmResultValues.is_Ok (hb_result host)); [|reflexivity].
  cbn [returned]. do 2 f_equal. unfold converted, host_stores.
  destruct (hb_stored host) as [[[p s] b]|];
    cbn [globalArrayBufferReference memory set_globalArrayBufferReference set_memory];
    rewrite ?Hs, ?Hm; reflexivity.
Qed.

(** X11. First reference to a root id: when the id is not registered, the
    property read gives a name and a factory is registered under it,
    [ensureRootContext] calls that factory once, with the id, stores the
    object it builds with [context_id] set to the id, returns the new
    reference and registers the id to it. No other object changes. *)
Theorem ensureRootContext_creates (host : HostBuffer) (id : Z) (w : World)
    (root_id : string) (f : Z -> RootContext) :
  Map_has (context_map w) id = false ->
  returned (get_plugin_root_id host w) = Some root_id ->
  Map_get (root_context_factory_map w) root_id = Some f ->
  exists w' es,
    ensureRootContext host id w = Ret (length (heap w)) w'
    /\ heap w' = heap w ++ [OfRootContext (set_context_id id (f id))]
    /\ context_map w' = Map_set (context_map w) id (length (heap w))
    /\ Map_get (context_map w') id = Some (length (heap w))
    /\ events w' = events w ++ es
    /\ List.filter is_call_factory es = [call_factory root_id id].
Proof.
  intros Hhas Hroot Hfac.
  pose proof (ensureRootContext_miss host id w Hhas) as Hmiss.
  rewrite Hroot, Hfac in Hmiss.
  destruct Hmiss as (w' & es & Hrun & Hh & Hc & _ & He & Hf & _).
  exists w', es. repeat split; try assumption.
  rewrite Hc. apply Map_get_set_eq.
Qed.

(** X12. First reference to a root id when the property cannot be read:
    [ensureRootContext] logs the status at level [critical] and ends the run
    with the message [":("]; no factory is called and nothing is registered
    or created. *)
Theorem ensureRootContext_property_failure (host : HostBuffer) (id : Z) (w : World) :
  Map_has (context_map w) id = false ->
  hb_result host <> WasmResultValues.Ok ->
  exists w' es,
    ensureRootContext host id w = Abort ":(" w'
    /\ heap w' = heap w /\ context_map w' = context_map w
    /\ events w' = events w ++ es
    /\ List.filter is_call_factory es = []
    /\ In (proxy_log LogLevelValues.critical
             (toString (WasmResultValues.to_Z (hb_result host)))) es.
Proof.
  intros Hhas Hfail.
  pose proof (ensureRootContext_miss host id w Hhas) as Hmiss.
  rewrite get_plugin_root_id_run, (is_Ok_false _ Hfail) in Hmiss. cbn [returned] in Hmiss.
  destruct Hmiss as (w' & es & Hrun & Hh & Hc & He & Hq & Hin).
  exists w', es. destruct (filter_quiet es Hq) as (_ & _ & Hf). repeat split; assumption.
Qed.

(** X13. First reference to a stream id under a registered root context:
    [ensureContext] calls the root's [createContext_] target once, with the
    root and the id, stores the object it builds at a new reference and
    registers the id to it. It calls no factory and changes no other object. *)
Theorem ensureContext_creates (host : HostBuffer) (context_id root_context_id : Z)
    (w : World) (root_context : loc) (self : RootContext) :
  Map_get (context_map w) root_context_id = Some root_context ->
  heap w !! root_context = Some (OfRootContext self) ->
  Map_has (context_map w) context_id = false ->
  exists w' es,
    ensureContext host context_id root_context_id w = Ret tt w'
    /\ heap w' = heap w ++ [OfContext (createContext_ self root_context context_id)]
    /\ context_map w' = Map_set (context_map w) context_id (length (heap w))
    /\ Map_get (context_map w') context_id = Some (length (heap w))
    /\ events w' = events w ++ es
    /\ List.filter is_call_createContext_ es
       = [call_createContext_ root_context context_id]
    /\ List.filter is_call_factory es = [].
Proof.
  intros Hroot Hself Hfresh.
  destruct (ensureContext_split host context_id root_context_id w)
    as (W & HW & (es0 & He0 & Hl0) & ->).
  assert (HcW : context_map W = context_map w) by (rewrite HW; reflexivity).
  assert (HhW : heap W = heap w) by (rewrite HW; reflexivity).
  destruct (ensureRootContext_hit host root_context_id W root_context)
    as (w1 & -> & Hh1 & Hc1 & _ & es1 & He1 & Hl1); [rewrite HcW; exact Hroot|].
  pose proof (ensureContext_after_root_run context_id root_context_id root_context w1)
    as Hrest.
  rewrite Hc1, HcW, Hfresh, Hh1, HhW, Hself in Hrest.
  destruct Hrest as (w' & es2 & Hrun & Hh & Hc & He & Hcc & Hcf & _).
  exists w', (es0 ++ es1 ++ es2). split; [exact Hrun|].
  split; [exact Hh|]. split; [exact Hc|].
  split; [rewrite Hc; apply Map_get_set_eq|].
  split; [rewrite He, He1, He0, <- !app_assoc; reflexivity|].
  destruct (filter_quiet es0 (logs_quiet es0 Hl0)) as (A1 & _ & A3).
  destruct (filter_quiet es1 (logs_quiet es1 Hl1)) as (B1 & _ & B3).
  rewrite !List.filter_app, A1, A3, B1, B3, Hcc, Hcf. split; reflexivity.
Qed.

(** X14. [ensureContext] with the same, unregistered id for the stream and
    for its root creates the root context only: the id ends up registered to
    the root context the factory built, and no [createContext_] target is
    called. *)
Theorem ensureContext_same_id_creates_root_only (host : HostBuffer) (id : Z) (w : World)
    (root_id : string) (f : Z -> RootContext) :
  Map_has (context_map w) id = false ->
  returned (get_plugin_root_id host w) = Some root_id ->
  Map_get (root_context_factory_map w) root_id = Some f ->
  exists w' es,
    ensureContext host id id w = Ret tt w'
    /\ heap w' = heap w ++ [OfRootContext (set_context_id id (f id))]
    /\ context_map w' = Map_set (context_map w) id (length (heap w))
    /\ events w' = events w ++ es
    /\ List.filter is_call_createContext_ es = []
    /\ List.filter is_call_factory es = [call_factory root_id id].
Proof.
  intros Hhas Hroot Hfac.
  destruct (ensureContext_split host id id w) as (W & HW & (es0 & He0 & Hl0) & ->).
  assert (HcW : context_map W = context_map w) by (rewrite HW; reflexivity).
  assert (HhW : heap W = heap w) by (rewrite HW; reflexivity).
  assert (HfW : root_context_factory_map W = root_context_factory_map w)
    by (rewrite HW; reflexivity).
  assert (HrW : returned (get_plugin_root_id host W) = Some root_id)
    by (rewrite HW, get_plugin_root_id_events; exact Hroot).
  pose proof (ensureRootContext_miss host id W) as Hmiss.
  rewrite HcW, HrW, HfW, Hfac in Hmiss. specialize (Hmiss Hhas).
  destruct Hmiss as (w1 & es1 & -> & Hh1 & Hc1 & _ & He1 & Hf1 & Hcc1 & _).
  pose proof (ensureContext_after_root_run id id (length (heap W)) w1) as Hrest.
  rewrite Hc1, Map_has_set_eq in Hrest.
  destruct Hrest as (w' & es2 & Hrun & Hh & Hc & He & Hl2).
  exists w', (es0 ++ es1 ++ es2). split; [exact Hrun|].
  split; [rewrite Hh, Hh1, HhW; reflexivity|].
  split; [rewrite Hc, HhW; reflexivity|].
  split; [rewrite He, He1, He0, <- !app_assoc; reflexivity|].
  destruct (filter_quiet es0 (logs_quiet es0 Hl0)) as (A1 & _ & A3).
  destruct (filter_quiet es2 (logs_quiet es2 Hl2)) as (C1 & _ & C3).
  rewrite !List.filter_app, A1, A3, C1, C3, Hcc1, Hf1. split; reflexivity.
Qed.

Lemma deleteContext_run (id : Z) (w : World) :
  deleteContext id w = Ret tt (set_context_map (Map_delete (context_map w) id) w).
Proof. reflexivity. Qed.

(** X15. [deleteContext] unregisters the id and nothing else: afterwards the
    id is absent and [getRootContext], [getContext] and [getBaseContext]
    throw for it, every other id is registered as before, and an id that was
    not registered leaves the registry as it was. The object itself is not
    touched: no pending call is cancelled and nothing is logged. *)
Theorem deleteContext_unregisters (id : Z) (w : World) :
  exists w',
    deleteContext id w = Ret tt w'
    /\ Map_has (context_map w') id = false
    /\ (forall k, k <> id -> Map_get (context_map w') k = Map_get (context_map w) k)
    /\ (Map_has (context_map w) id = false -> context_map w' = context_map w)
    /\ heap w' = heap w /\ events w' = events w
    /\ getRootContext id w' = Abort "Key does not exist" w'
    /\ getContext id w' = Abort "Key does not exist" w'
    /\ getBaseContext id w' = Abort "Key does not exist" w'.
Proof.
  eexists. split; [apply deleteContext_run|]. cbn [context_map heap events set_context_map].
  split; [apply Map_has_delete|].
  split; [intros k Hk; apply Map_get_delete_other; congruence|].
  split; [apply Map_delete_absent|].
  split; [reflexivity|]. split; [reflexivity|].
  assert (Hget : Map_get (Map_delete (context_map w) id) id = None)
    by (apply Map_has_false_get, Map_has_delete).
  unfold getRootContext, getContext, getBaseContext. run. rewrite Hget.
  repeat split.
Qed.

(** X16. After an id has been deleted, the next [ensureRootContext] for it
    starts over: it calls the factory again and returns a new object, not
    the one the first call created (which stays in the heap as it was). *)
Theorem ensureRootContext_after_delete (host1 host2 : HostBuffer) (id : Z)
    (w w1 w3 : World) (r r' : loc) :
  Map_has (context_map w) id = false ->
  ensureRootContext host1 id w = Ret r w1 ->
  ensureRootContext host2 id (final (deleteContext id w1)) = Ret r' w3 ->
  r' <> r
  /\ heap w3 !! r = heap w1 !! r
  /\ Map_get (context_map w3) id = Some r'
  /\ exists es root_id,
       events w3 = events w1 ++ es
       /\ List.filter is_call_factory es = [call_factory root_id id].
Proof.
  intros Hhas Hfirst Hsecond.
  pose proof (ensureRootContext_miss host1 id w Hhas) as H1.
  destruct (returned (get_plugin_root_id host1 w)) as [n1|].
  2:{ destruct H1 as (? & ? & H1 & _). congruence. }
  destruct (Map_get (root_context_factory_map w) n1) as [f1|].
  2:{ destruct H1 as (? & ? & H1 & _). congruence. }
  destruct H1 as (w1' & es1 & H1 & Hh1 & _).
  rewrite Hfirst in H1. injection H1 as -> <-.
  rewrite deleteContext_run in Hsecond. cbn [final] in Hsecond.
  set (w2 := set_context_map (Map_delete (context_map w1) id) w1) in *.
  assert (Hhas2 : Map_has (context_map w2) id = false) by apply Map_has_delete.
  pose proof (ensureRootContext_miss host2 id w2 Hhas2) as H2.
  destruct (returned (get_plugin_root_id host2 w2)) as [n2|].
  2:{ destruct H2 as (? & ? & H2 & _). congruence. }
  destruct (Map_get (root_context_factory_map w2) n2) as [f2|].
  2:{ destruct H2 as (? & ? & H2 & _). congruence. }
  destruct H2 as (w3' & es2 & H2 & Hh2 & Hc2 & _ & He2 & Hf2 & _).
  rewrite Hsecond in H2. injection H2 as -> <-.
  subst w2. cbn [heap events context_map set_context_map] in *.
  split; [rewrite Hh1; len_norm; lia|].
  split.
  { rewrite Hh2. apply lookup_app_l. rewrite Hh1. len_norm. lia. }
  split; [rewrite Hc2; apply Map_get_set_eq|].
  exists es2, n2. split; assumption.
Qed.

(** X17. Registering a second factory under a name replaces the first: the
    next root context created under that name is built by the second
    factory, and the table holds the name once. *)
Theorem registerRootContext_replaces (f g : Z -> RootContext) (name : string)
    (host : HostBuffer) (id : Z) (w : World) :
  Map_has (context_map w) id = false ->
  returned (get_plugin_root_id host w) = Some name ->
  exists w2 w' es,
    registerRootContext g name (final (registerRootContext f name w)) = Ret tt w2
    /\ Map_keys (root_context_factory_map w2)
       = Map_keys (root_context_factory_map (final (registerRootContext f name w)))
    /\ ensureRootContext host id w2 = Ret (length (heap w)) w'
    /\ heap w' = heap w ++ [OfRootContext (set_context_id id (g id))]
    /\ events w' = events w ++ es
    /\ List.filter is_call_factory es = [call_factory name id].
Proof.
  intros Hhas Hroot. eexists. 
  set (w2 := final (registerRootContext g name (final (registerRootContext f name w)))).
  assert (Hrun : registerRootContext g name (final (registerRootContext f name w))
                 = Ret tt w2) by reflexivity.
  assert (Hfac : Map_get (root_context_factory_map w2) name = Some g).
  { unfold w2, registerRootContext. cbv [modify final].
    cbn [root_context_factory_map set_root_context_factory_map].
    apply Map_get_set_eq. }
  assert (Hroot2 : returned (get_plugin_root_id host w2) = Some name).
  { rewrite <- Hroot. apply get_plugin_root_id_independent; reflexivity. }
  pose proof (ensureRootContext_miss host id w2 Hhas) as Hmiss.
  rewrite Hroot2, Hfac in Hmiss.
  destruct Hmiss as (w' & es & Hens & Hh & _ & _ & He & Hf & _).
  exists w', es. split; [exact Hrun|]. split.
  { unfold w2, registerRootContext. cbv [modify final].
    cbn [root_context_factory_map set_root_context_factory_map].
    rewrite Map_keys_set, Map_has_set_eq. reflexivity. }
  repeat split; assumption.
Qed.

(** ** More about the pending http calls *)

Lemma Map_get_app_fresh {K V} `{EqDecision K} (m1 m2 : Map K V) (k : K) :
  Map_has m1 k = false -> Map_get (m1 ++ m2) k = Map_get m2 k.
Proof.
  induction m1 as [|[k' v'] m1 IH]; intros Hf; [reflexivity|].
  rewrite Map_has_cons in Hf. cbn [app Map_get].
  destruct (decide (k' = k)); [discriminate | exact (IH Hf)].
Qed.

Lemma Map_delete_app {K V} `{EqDecision K} (m1 m2 : Map K V) (k : K) :
  Map_delete (m1 ++ m2) k = Map_delete m1 k ++ Map_delete m2 k.
Proof.
  induction m1 as [|[k' v'] m1 IH]; [reflexivity|].
  cbn [app Map_delete]. destruct (decide (k' = k)); [exact IH|].
  cbn [app]. rewrite IH. reflexivity.
Qed.

Lemma lookup_with_http_calls_ (this : loc) (r : RootContext) (m : Map Z HttpCallback)
    (h : list BaseContext) (o : BaseContext) :
  h !! this = Some o ->
  with_http_calls_ this r m h !! this = Some (OfRootContext (set_http_calls_ m r)).
Proof.
  intros Hthis. unfold with_http_calls_.
  apply list_lookup_insert_eq. eapply lookup_lt_Some; eassumption.
Qed.

Lemma lookup_with_http_calls_other (this other : loc) (r : RootContext)
    (m : Map Z HttpCallback) (h : list BaseContext) :
  this <> other -> with_http_calls_ this r m h !! other = h !! other.
Proof. intros Hne. unfold with_http_calls_. apply list_lookup_insert_ne. exact Hne. Qed.

(** [onHttpCallResponse] on a root context, case by case. *)
Lemma onHttpCallResponse_run (this : loc) (token headers body_size trailers : Z)
    (w : World) (r : RootContext) :
  heap w !! this = Some (OfRootContext r) ->
  match Map_get (http_calls_ r) token with
  | Some c =>
      match heap w !! origin_context c with
      | Some _ =>
          exists w' es,
            onHttpCallResponse this token headers body_size trailers w = Ret tt w'
            /\ heap w' = with_http_calls_ this r (Map_delete (http_calls_ r) token) (heap w)
            /\ context_map w' = context_map w
            /\ events w' = events w ++ es
            /\ cb_events es
               = [call_cb (cb c) (origin_context c) headers body_size trailers]
      | None =>
          exists w',
            onHttpCallResponse this token headers body_size trailers w
            = Abort "invalid reference" w'
      end
  | None =>
      exists w' es,
        onHttpCallResponse this token headers body_size trailers w = Ret tt w'
        /\ heap w' = heap w
        /\ context_map w' = context_map w
        /\ events w' = events w ++ es
        /\ cb_events es = []
        /\ In (proxy_log LogLevelValues.error
                 ("onHttpCallResponse: Token " +:+ toString token +:+ " not found."))
             es
  end.
Proof.
  intros Hthis. unfold onHttpCallResponse. run. rewrite Hthis. run.
  destruct (Map_get (http_calls_ r) token) as [c|] eqn:Hget.
  - assert (Hhas : Map_has (http_calls_ r) token = true) by (apply Map_has_get; eauto).
    rewrite Hhas. run.
    destruct (heap w !! origin_context c) as [origin|]; run.
    + rewrite Hthis. run. eexists _, _. split; [reflexivity|].
      cbn [events heap context_map]. rewrite <- !app_assoc. repeat split.
    + eexists. reflexivity.
  - assert (Hhas : Map_has (http_calls_ r) token = false)
      by (apply Map_has_false_get; exact Hget).
    rewrite Hhas. run. eexists _, _. split; [reflexivity|].
    cbn [events heap context_map]. rewrite <- !app_assoc.
    do 4 (split; [reflexivity|]). cbn [app In]. do 4 right. left. reflexivity.
Qed.

Lemma cb_events_app (es1 es2 : list Event) :
  cb_events (es1 ++ es2) = cb_events es1 ++ cb_events es2.
Proof. unfold cb_events. apply List.filter_app. Qed.

(** X18. A token that is already pending: when the host answers a second
    accepted call with the token of a pending one, [httpCall] replaces the
    entry. The table is what the second call alone would have left; the
    first continuation is no longer registered anywhere in it. *)
Theorem httpCall_same_token_replaces (token : Z) (this : loc)
    (cluster1 cluster2 : string) (headers1 headers2 : Headers) (body1 body2 : ArrayBuffer)
    (trailers1 trailers2 : Headers) (timeout1 timeout2 : Z) (origin1 origin2 : loc)
    (f1 f2 : Z) (w w1 w2 : World) (r : RootContext) :
  heap w !! this = Some (OfRootContext r) ->
  httpCall {| hc_result := WasmResultValues.Ok; hc_token := token |} this cluster1
    headers1 body1 trailers1 timeout1 origin1 f1 w = Ret WasmResultValues.Ok w1 ->
  httpCall {| hc_result := WasmResultValues.Ok; hc_token := token |} this cluster2
    headers2 body2 trailers2 timeout2 origin2 f2 w1 = Ret WasmResultValues.Ok w2 ->
  http_calls_at w2 this
  = Some (Map_set (http_calls_ r) token (pending origin2 f2))
  /\ Map_get (Map_set (http_calls_ r) token (pending origin2 f2)) token
     = Some (pending origin2 f2)
  /\ length (Map_set (http_calls_ r) token (pending origin2 f2))
     = length (Map_set (http_calls_ r) token (pending origin1 f1)).
Proof.
  intros Hthis Hfirst Hsecond.
  destruct (httpCall_cases {| hc_result := WasmResultValues.Ok; hc_token := token |}
              this cluster1 headers1 body1 trailers1 timeout1 origin1 f1 w r Hthis)
    as (w1' & es1 & Hc1 & _).
  destruct (serializeHeaders headers1); [destruct (serializeHeaders trailers1)|];
    destruct Hc1 as [Hrun1 Hheap1]; rewrite Hfirst in Hrun1; try discriminate.
  injection Hrun1 as <-. cbn [hc_result hc_token WasmResultValues.is_Ok] in Hheap1.
  pose proof (lookup_with_http_calls_ this r
                (Map_set (http_calls_ r) token (pending origin1 f1)) (heap w) _ Hthis)
    as Hthis1.
  rewrite <- Hheap1 in Hthis1.
  destruct (httpCall_cases {| hc_result := WasmResultValues.Ok; hc_token := token |}
              this cluster2 headers2 body2 trailers2 timeout2 origin2 f2 w1 _ Hthis1)
    as (w2' & es2 & Hc2 & _).
  destruct (serializeHeaders headers2); [destruct (serializeHeaders trailers2)|];
    destruct Hc2 as [Hrun2 Hheap2]; rewrite Hsecond in Hrun2; try discriminate.
  injection Hrun2 as <-.
  cbn [hc_result hc_token WasmResultValues.is_Ok http_calls_ set_http_calls_] in Hheap2.
  rewrite Map_set_set_eq in Hheap2.
  split.
  { unfold http_calls_at. rewrite Hheap2.
    erewrite lookup_with_http_calls_ by exact Hthis1. reflexivity. }
  split; [apply Map_get_set_eq|].
  assert (Hlen : forall v : HttpCallback,
            length (Map_keys (Map_set (http_calls_ r) token v))
            = length (if Map_has (http_calls_ r) token then Map_keys (http_calls_ r)
                      else Map_keys (http_calls_ r) ++ [token]))
    by (intros v; rewrite Map_keys_set; reflexivity).
  pose proof (Hlen (pending origin1 f1)) as L1. pose proof (Hlen (pending origin2 f2)) as L2.
  unfold Map_keys in L1, L2. rewrite length_fmap in L1, L2. congruence.
Qed.

Lemma Map_get_entries (before after : list HttpCallArgs) (c : HttpCallArgs) :
  hc_token (a_host c) ∉ map (fun c => hc_token (a_host c)) before ->
  Map_get (map entry_of (before ++ c :: after)) (hc_token (a_host c))
  = Some (pending (a_origin_context c) (a_cb c)).
Proof.
  intros Hnot. rewrite map_app.
  rewrite (Map_get_app_fresh _ _ _ (Map_has_entries before _ Hnot)).
  cbn [map Map_get entry_of]. rewrite decide_True by reflexivity. reflexivity.
Qed.

Lemma Map_delete_entries (before after : list HttpCallArgs) (c : HttpCallArgs) :
  hc_token (a_host c) ∉ map (fun c => hc_token (a_host c)) before ->
  hc_token (a_host c) ∉ map (fun c => hc_token (a_host c)) after ->
  Map_delete (map entry_of (before ++ c :: after)) (hc_token (a_host c))
  = map entry_of (before ++ after).
Proof.
  intros Hb Ha. rewrite !map_app, Map_delete_app.
  cbn [map Map_delete entry_of]. rewrite decide_True by reflexivity.
  rewrite (Map_delete_absent _ _ (Map_has_entries before _ Hb)).
  rewrite (Map_delete_absent _ _ (Map_has_entries after _ Ha)). reflexivity.
Qed.

(** X19. Every accepted call is answered once. On a root context with an
    empty table, after calls the host accepted under distinct tokens, a
    response for one of them followed by [onDone] invokes the continuation
    of that call with the response's handles and then the continuation of
    every other call, in the order of the calls, with the handles 0, 0, 0:
    the answered call is not cancelled again. *)
Theorem response_then_onDone_invoke_each_once (this : loc)
    (before after : list HttpCallArgs) (c : HttpCallArgs) (w w1 : World)
    (r : RootContext) (results : list WasmResultValues.t)
    (headers body_size trailers : Z) :
  heap w !! this = Some (OfRootContext r) ->
  http_calls_ r = [] ->
  httpCalls this (before ++ c :: after) w = Ret results w1 ->
  Forall (fun s => s = WasmResultValues.Ok) results ->
  NoDup (map (fun c => hc_token (a_host c)) (before ++ c :: after)) ->
  is_Some (heap w1 !! a_origin_context c) ->
  exists w2 w3 es1 es2,
    onHttpCallResponse this (hc_token (a_host c)) headers body_size trailers w1
    = Ret tt w2
    /\ events w2 = events w1 ++ es1
    /\ onDone this w2 = Ret true w3
    /\ events w3 = events w2 ++ es2
    /\ cb_events (es1 ++ es2)
       = response c headers body_size trailers
         :: map (fun c => call_cb (a_cb c) (a_origin_context c) 0 0 0) (before ++ after)
    /\ http_calls_at w3 this = Some [].
Proof.
  intros Hthis Hempty Hcalls Hok Hnodup [origin Horigin].
  assert (Hfresh : forall c', c' ∈ before ++ c :: after ->
                     Map_has (http_calls_ r) (hc_token (a_host c')) = false)
    by (intros c' _; rewrite Hempty; reflexivity).
  destruct (httpCalls_table this _ w w1 r results Hthis Hcalls Hok Hnodup Hfresh)
    as [_ Hthis1].
  rewrite Hempty in Hthis1. cbn [app] in Hthis1.
  rewrite map_app in Hnodup. cbn [map] in Hnodup.
  apply NoDup_app in Hnodup as (_ & Hcross & Hright).
  apply NoDup_cons in Hright as [Hnotafter _].
  assert (Hnotbefore : hc_token (a_host c) ∉ map (fun c => hc_token (a_host c)) before).
  { intros Hin. apply (Hcross _ Hin). left. }
  pose proof (onHttpCallResponse_run this (hc_token (a_host c)) headers body_size
                trailers w1 _ Hthis1) as Hresp.
  cbn [http_calls_ set_http_calls_] in Hresp.
  rewrite (Map_get_entries before after c Hnotbefore) in Hresp.
  rewrite (Map_delete_entries before after c Hnotbefore Hnotafter) in Hresp.
  cbn [origin_context cb pending] in Hresp. rewrite Horigin in Hresp.
  destruct Hresp as (w2 & es1 & Hrun2 & Hheap2 & _ & Hev2 & Hcb1).
  pose proof (lookup_with_http_calls_ this
                (set_http_calls_ (map entry_of (before ++ c :: after)) r)
                (map entry_of (before ++ after)) (heap w1) _ Hthis1) as Hthis2.
  rewrite <- Hheap2 in Hthis2.
  destruct (onDone_run this w2 _ Hthis2) as (w3 & es2 & Hrun3 & Hev3 & Hcb2 & Hheap3 & _).
  cbn [http_calls_ set_http_calls_] in Hcb2. rewrite Map_values_entries in Hcb2.
  exists w2, w3, es1, es2. repeat split; try assumption.
  - rewrite cb_events_app, Hcb1, Hcb2. reflexivity.
  - unfold http_calls_at. rewrite Hheap3.
    erewrite lookup_with_http_calls_ by exact Hthis2. reflexivity.
Qed.

(** X20. A response is consumed: after [onHttpCallResponse] ran the
    continuation of a pending token, a second response for the same token
    invokes no continuation; it is reported at level [error] and leaves the
    objects as they are. *)
Theorem onHttpCallResponse_second_response_is_dropped (this : loc)
    (token h1 b1 t1 h2 b2 t2 : Z) (w w1 : World) (r : RootContext) (c : HttpCallback) :
  heap w !! this = Some (OfRootContext r) ->
  Map_get (http_calls_ r) token = Some c ->
  onHttpCallResponse this token h1 b1 t1 w = Ret tt w1 ->
  exists w2 es,
    onHttpCallResponse this token h2 b2 t2 w1 = Ret tt w2
    /\ heap w2 = heap w1
    /\ events w2 = events w1 ++ es
    /\ cb_events es = []
    /\ In (proxy_log LogLevelValues.error
             ("onHttpCallResponse: Token " +:+ toString token +:+ " not found."))
         es.
Proof.
  intros Hthis Hget Hfirst.
  pose proof (onHttpCallResponse_run this token h1 b1 t1 w r Hthis) as H1.
  rewrite Hget in H1.
  destruct (heap w !! origin_context c);
    [|destruct H1 as (w' & Hrun); rewrite Hfirst in Hrun; discriminate].
  destruct H1 as (w' & es1 & Hrun & Hheap & _). rewrite Hfirst in Hrun.
  injection Hrun as <-.
  pose proof (lookup_with_http_calls_ this r (Map_delete (http_calls_ r) token)
                (heap w) _ Hthis) as Hthis1.
  rewrite <- Hheap in Hthis1.
  pose proof (onHttpCallResponse_run this token h2 b2 t2 w1 _ Hthis1) as H2.
  cbn [http_calls_ set_http_calls_] in H2.
  rewrite (proj1 (Map_has_false_get _ _) (Map_has_delete (http_calls_ r) token)) in H2.
  destruct H2 as (w2 & es & Hrun2 & Hheap2 & _ & Hev & Hcb & Hlog).
  exists w2, es. repeat split; assumption.
Qed.

(** X21. [onDone] empties the table for good: a second [onDone] on the same
    root context returns [true] again and invokes no continuation. *)
Theorem onDone_again_cancels_nothing (this : loc) (w w1 : World) (r : RootContext) :
  heap w !! this = Some (OfRootContext r) ->
  onDone this w = Ret true w1 ->
  exists w2 es,
    onDone this w1 = Ret true w2
    /\ events w2 = events w1 ++ es
    /\ cb_events es = []
    /\ heap w2 = heap w1.
Proof.
  intros Hthis Hfirst.
  destruct (onDone_run this w r Hthis) as (w' & es1 & Hrun & _ & _ & Hheap & _).
  rewrite Hfirst in Hrun. injection Hrun as <-.
  pose proof (lookup_with_http_calls_ this r [] (heap w) _ Hthis) as Hthis1.
  rewrite <- Hheap in Hthis1.
  destruct (onDone_run this w1 _ Hthis1) as (w2 & es & Hrun2 & Hev & Hcb & Hheap2 & _).
  exists w2, es. repeat split; try assumption.
  rewrite Hheap2. unfold with_http_calls_.
  apply list_insert_id. exact Hthis1.
Qed.

(** X22. The table is per root context: [httpCall], [onHttpCallResponse]
    and [onDone] on one root context leave every other object, and so the
    pending calls of every other root context, as they were. *)
Theorem pending_calls_are_per_root_context (this other : loc) (w : World)
    (r : RootContext) :
  heap w !! this = Some (OfRootContext r) ->
  this <> other ->
  (forall host cluster headers body trailers timeout_milliseconds origin f res w',
      httpCall host this cluster headers body trailers timeout_milliseconds origin f w
      = Ret res w' ->
      heap w' !! other = heap w !! other
      /\ http_calls_at w' other = http_calls_at w other)
  /\ (forall token headers body_size trailers w',
        onHttpCallResponse this token headers body_size trailers w = Ret tt w' ->
        heap w' !! other = heap w !! other
        /\ http_calls_at w' other = http_calls_at w other)
  /\ (forall w',
        onDone this w = Ret true w' ->
        heap w' !! other = heap w !! other
        /\ http_calls_at w' other = http_calls_at w other).
Proof.
  intros Hthis Hne.
  assert (Hat : forall w', heap w' !! other = heap w !! other ->
                  heap w' !! other = heap w !! other
                  /\ http_calls_at w' other = http_calls_at w other).
  { intros w' Hsame. split; [exact Hsame|]. unfold http_calls_at. rewrite Hsame.
    reflexivity. }
  split; [|split].
  - intros host cluster headers body trailers timeout_milliseconds origin f res w' Hrun.
    apply Hat.
    destruct (httpCall_cases host this cluster headers body trailers
                timeout_milliseconds origin f w r Hthis) as (w1 & es & Hc & _).
    destruct (serializeHeaders headers); [destruct (serializeHeaders trailers)|];
      destruct Hc as [Hrun1 Hheap]; rewrite Hrun in Hrun1; try discriminate.
    injection Hrun1 as _ <-. rewrite Hheap.
    destruct (WasmResultValues.is_Ok (hc_result host)); [|reflexivity].
    apply lookup_with_http_calls_other. exact Hne.
  - intros token headers body_size trailers w' Hrun. apply Hat.
    pose proof (onHttpCallResponse_run this token headers body_size trailers w r Hthis)
      as Hcases.
    destruct (Map_get (http_calls_ r) token) as [c|].
    + destruct (heap w !! origin_context c).
      * destruct Hcases as (w1 & es & Hrun1 & Hheap & _). rewrite Hrun in Hrun1.
        injection Hrun1 as <-. rewrite Hheap.
        apply lookup_with_http_calls_other. exact Hne.
      * destruct Hcases as (w1 & Hrun1). rewrite Hrun in Hrun1. discriminate.
    + destruct Hcases as (w1 & es & Hrun1 & Hheap & _). rewrite Hrun in Hrun1.
      injection Hrun1 as <-. rewrite Hheap. reflexivity.
  - intros w' Hrun. apply Hat.
    destruct (onDone_run this w r Hthis) as (w1 & es & Hrun1 & _ & _ & Hheap & _).
    rewrite Hrun in Hrun1. injection Hrun1 as <-. rewrite Hheap.
    apply lookup_with_http_calls_other. exact Hne.
Qed.

(** X23. A call that cannot be encoded is not made: when the headers or the
    trailers do not fit an [ArrayBuffer], [httpCall] ends the run with a
    [RangeError] whatever the host would have answered; no continuation is
    registered, no plugin code runs, and the registry is as it was. *)
Theorem httpCall_encoding_failure (host : HostHttpCall) (this : loc) (cluster : string)
    (headers : Headers) (body : ArrayBuffer) (trailers : Headers)
    (timeout_milliseconds : Z) (origin : loc) (f : Z) (w : World) (r : RootContext) :
  heap w !! this = Some (OfRootContext r) ->
  serializeHeaders headers = None \/ serializeHeaders trailers = None ->
  exists w' es,
    httpCall host this cluster headers body trailers timeout_milliseconds origin f w
    = Abort "RangeError" w'
    /\ heap w' = heap w
    /\ http_calls_at w' this = Some (http_calls_ r)
    /\ context_map w' = context_map w
    /\ events w' = events w ++ es
    /\ quiet es.
Proof.
  intros Hthis Hnone.
  destruct (httpCall_cases host this cluster headers body trailers
              timeout_milliseconds origin f w r Hthis) as (w' & es & Hc & Hev & Hq & Hm).
  assert (Hrun : httpCall host this cluster headers body trailers timeout_milliseconds
                   origin f w = Abort "RangeError" w' /\ heap w' = heap w).
  { destruct (serializeHeaders headers) as [hp|];
      [destruct (serializeHeaders trailers) as [tp|]|]; try exact Hc.
    destruct Hnone; discriminate. }
  destruct Hrun as [Hrun Hheap]. exists w', es. repeat split; try assumption.
  unfold http_calls_at. rewrite Hheap, Hthis. reflexivity.
Qed.


End Runtime.

(** ** The statements at concrete inputs

    The runtime's bound on buffers is taken as [2 ^ 30 - 16] and the two
    [toString] renderings as constant. *)

Lemma serializeHeaders_deserializeHeaders_witness :
  exists encoding,
    serializeHeaders 1073741808 empty_parts_headers = Some encoding
    /\ deserializeHeaders 1073741808 encoding = Some empty_parts_headers.
Proof.
  apply serializeHeaders_deserializeHeaders; [reflexivity | vm_compute; discriminate].
Defined.

Lemma serializeHeaders_scenario_witness :
  serializeHeaders 1073741808 scenario_headers = Some (scenario_encoding [3; 1; 3; 0])
  /\ deserializeHeaders 1073741808 (scenario_encoding [3; 1; 3; 0]) = Some scenario_headers.
Proof.
  apply serializeHeaders_scenario; [reflexivity | vm_compute; discriminate].
Defined.

(** C2, as the specification states it, fails: whatever the bound on
    buffers, the encoding of the two headers x-a: 1 and x-b: (empty value)
    is not the one with the table of lengths [1, 1, 1, 0]. *)
Lemma scenario_lengths_not_1_1_1_0 :
  ~ exists BLOCK_MAXSIZE,
      serializeHeaders BLOCK_MAXSIZE scenario_headers
      = Some (scenario_encoding [1; 1; 1; 0]).
Proof.
  intros [M H]. unfold serializeHeaders, new_ArrayBuffer in H.
  change (u32 (pairsSize scenario_headers)) with 31 in H.
  destruct (M <? 31); [discriminate|].
  vm_compute in H. discriminate.
Qed.

Lemma onDone_cancels_every_pending_call_witness :
  exists w2 es,
    onDone 0%nat
      (final (httpCalls 1073741808 (fun _ => EmptyString) (fun _ => EmptyString) 0%nat two_calls
                running_World))
    = Ret true w2
    /\ events w2
       = events (final (httpCalls 1073741808 (fun _ => EmptyString) (fun _ => EmptyString) 0%nat
                          two_calls running_World)) ++ es
    /\ cb_events es
       = map (fun c => call_cb (a_cb c) (a_origin_context c) 0 0 0) two_calls
    /\ length (cb_events es) = length two_calls
    /\ http_calls_at w2 0%nat = Some [].
Proof.
  apply (onDone_cancels_every_pending_call 1073741808 (fun _ => EmptyString) (fun _ => EmptyString)
           0%nat two_calls running_World _ (new_RootContext 1)
           [WasmResultValues.Ok; WasmResultValues.Ok]).
  - reflexivity.
  - reflexivity.
  - vm_compute. reflexivity.
  - repeat constructor.
  - vm_compute. repeat constructor; rewrite ?elem_of_cons, ?elem_of_nil; lia.
Defined.

Lemma httpCall_stores_iff_Ok_witness :
  exists w',
    httpCall 1073741808 (fun _ => EmptyString) (fun _ => EmptyString)
      {| hc_result := WasmResultValues.Ok; hc_token := 7 |} 0%nat "upstream"
      scenario_headers [] [] 1000 1%nat 100 running_World
    = Ret WasmResultValues.Ok w'
    /\ (WasmResultValues.Ok = WasmResultValues.Ok ->
        exists m, http_calls_at w' 0%nat = Some m
                  /\ m = Map_set [] 7 (pending 1%nat 100)
                  /\ Map_get m 7 = Some (pending 1%nat 100))
    /\ (WasmResultValues.Ok <> WasmResultValues.Ok ->
        http_calls_at w' 0%nat = Some []
        /\ heap w' = heap running_World
        /\ context_map w' = context_map running_World).
Proof.
  apply (httpCall_stores_iff_Ok 1073741808 (fun _ => EmptyString) (fun _ => EmptyString) eq_refl
           {| hc_result := WasmResultValues.Ok; hc_token := 7 |} 0%nat "upstream"
           scenario_headers [] [] 1000 1%nat 100 running_World (new_RootContext 1)).
  - reflexivity.
  - vm_compute. discriminate.
  - vm_compute. discriminate.
Defined.

Lemma onHttpCallResponse_correlates_witness :
  exists w' es,
    onHttpCallResponse 0%nat 7 11 12 13
      (final (httpCalls 1073741808 (fun _ => EmptyString) (fun _ => EmptyString) 0%nat two_calls
                running_World))
    = Ret tt w'
    /\ events w'
       = events (final (httpCalls 1073741808 (fun _ => EmptyString) (fun _ => EmptyString) 0%nat
                          two_calls running_World)) ++ es
    /\ cb_events es = [call_cb 100 1%nat 11 12 13]
    /\ http_calls_at w' 0%nat = Some [(8, pending 1%nat 101)]
    /\ Map_has [(8, pending 1%nat 101)] 7 = false.
Proof.
  apply (onHttpCallResponse_correlates 0%nat 7 11 12 13
           (final (httpCalls 1073741808 (fun _ => EmptyString) (fun _ => EmptyString) 0%nat two_calls
                     running_World))
           (set_http_calls_ [(7, pending 1%nat 100); (8, pending 1%nat 101)]
              (new_RootContext 1))).
  - vm_compute. reflexivity.
  - intros c Hc. vm_compute in Hc. injection Hc as <-. vm_compute. eexists. reflexivity.
Defined.

Lemma ensureRootContext_idempotent_witness :
  exists w2,
    ensureRootContext host_not_found 1
      (final (ensureRootContext host_root_name 1 registered_World))
    = Ret 0%nat w2
    /\ heap w2 = heap (final (ensureRootContext host_root_name 1 registered_World))
    /\ context_map w2
       = context_map (final (ensureRootContext host_root_name 1 registered_World))
    /\ exists es,
         events w2
         = events (final (ensureRootContext host_root_name 1 registered_World)) ++ es
         /\ List.filter is_call_factory es = []
         /\ forallb is_proxy_log es = true.
Proof.
  apply (ensureRootContext_idempotent host_root_name host_not_found 1 registered_World).
  vm_compute. reflexivity.
Defined.



Lemma ensureRootContext_missing_factory_witness :
  exists w',
    ensureRootContext host_root_name 1 initial_World
    = Abort ("Missing root context factory for root id: " +:+ "root") w'
    /\ context_map w' = context_map initial_World /\ heap w' = heap initial_World.
Proof.
  apply (ensureRootContext_missing_factory host_root_name 1 initial_World "root").
  - reflexivity.
  - vm_compute. reflexivity.
  - reflexivity.
Defined.


Lemma getters_return_empty_on_failure_witness :
  returned (get_header_map_value host_not_found 0 (String_UTF8_encode "x-a") initial_World)
  = Some []
  /\ returned (get_header_map_flat_pairs host_not_found 0 initial_World) = Some []
  /\ returned (get_buffer_bytes host_not_found 0 0 16 initial_World) = Some []
  /\ forall ptr,
       let empty := {| hb_result := WasmResultValues.Ok; hb_stored := Some (ptr, 0, []) |} in
       returned (get_header_map_value empty 0 (String_UTF8_encode "x-a") initial_World)
       = Some []
       /\ returned (get_header_map_flat_pairs empty 0 initial_World) = Some []
       /\ returned (get_buffer_bytes empty 0 0 16 initial_World) = Some [].
Proof.
  apply (getters_return_empty_on_failure host_not_found 0 (String_UTF8_encode "x-a")
           0 16 initial_World).
  discriminate.
Defined.

(** ** Further statements at concrete inputs *)

Lemma serializeHeaders_byteLength_witness :
  exists encoding,
    serializeHeaders 1073741808 scenario_headers = Some encoding
    /\ byteLength encoding = pairsSize scenario_headers
    /\ pairsSize scenario_headers
       = 4 + foldr (fun h acc => 10 + byteLength (key h) + byteLength (value h) + acc)
               0 scenario_headers.
Proof.
  apply (serializeHeaders_byteLength 1073741808 eq_refl scenario_headers).
  vm_compute. discriminate.
Defined.

Lemma serializeHeaders_too_large_witness :
  serializeHeaders 16 scenario_headers = None.
Proof.
  apply (serializeHeaders_too_large 16 scenario_headers); vm_compute; reflexivity.
Defined.

Lemma serializeHeaders_injective_witness :
  scenario_headers = map fst scenario_framed.
Proof.
  apply (serializeHeaders_injective 1073741808 eq_refl scenario_headers (map fst scenario_framed)).
  - vm_compute. discriminate.
  - vm_compute. discriminate.
  - vm_compute. reflexivity.
Defined.

Lemma deserializeHeaders_short_buffer_witness :
  deserializeHeaders 1073741808 [x02; x00; x00] = None.
Proof.
  apply (deserializeHeaders_short_buffer 1073741808 [x02; x00; x00]). vm_compute. reflexivity.
Defined.

Lemma deserializeHeaders_ignores_sentinels_and_tail_witness :
  deserializeHeaders 1073741808
    (u32_bytes (Z.of_nat (length (map fst scenario_framed)))
     ++ sizes_table (map fst scenario_framed)
     ++ payload_with scenario_framed ++ [xff; xff; xff])
  = Some (map fst scenario_framed).
Proof.
  apply (deserializeHeaders_ignores_sentinels_and_tail 1073741808 eq_refl scenario_framed
           [xff; xff; xff]).
  vm_compute. discriminate.
Defined.


Lemma get_header_map_pairs_aborts_on_failure_witness :
  exists w',
    get_header_map_pairs 1073741808 host_not_found 0 initial_World = Abort "RangeError" w'
    /\ events w' = events initial_World.
Proof.
  apply (get_header_map_pairs_aborts_on_failure 1073741808 host_not_found 0 initial_World).
  left. discriminate.
Defined.

Lemma get_header_map_pairs_of_encoding_witness :
  exists w',
    get_header_map_pairs 1073741808
      {| hb_result := WasmResultValues.Ok;
         hb_stored := Some (8192, byteLength (scenario_encoding [3; 1; 3; 0]),
                            scenario_encoding [3; 1; 3; 0]) |} 0 initial_World
    = Ret scenario_headers w'
    /\ events w' = events initial_World ++ [free 8192].
Proof.
  apply (get_header_map_pairs_of_encoding 1073741808 eq_refl scenario_headers
           (scenario_encoding [3; 1; 3; 0]) 8192 0 initial_World).
  - vm_compute. discriminate.
  - vm_compute. reflexivity.
Defined.

Lemma getters_free_exactly_on_success_witness :
  (returned (get_header_map_value host_three_bytes 0 (String_UTF8_encode "x-a")
               initial_World)
   = Some (String_UTF8_encode "abc")
   /\ events (final (get_header_map_value host_three_bytes 0 (String_UTF8_encode "x-a")
                       initial_World))
      = events initial_World ++ [free 8192])
  /\ (returned (get_header_map_flat_pairs host_three_bytes 0 initial_World)
      = Some (String_UTF8_encode "abc")
      /\ events (final (get_header_map_flat_pairs host_three_bytes 0 initial_World))
         = events initial_World ++ [free 8192])
  /\ (returned (get_buffer_bytes host_three_bytes 0 0 16 initial_World)
      = Some (String_UTF8_encode "abc")
      /\ events (final (get_buffer_bytes host_three_bytes 0 0 16 initial_World))
         = events initial_World ++ [free 8192]).
Proof.
  apply (getters_free_exactly_on_success host_three_bytes 0 (String_UTF8_encode "x-a")
           0 16 initial_World 8192 3 (String_UTF8_encode "abc")).
  reflexivity.
Defined.

Lemma set_header_map_pairs_hands_over_the_encoding_witness :
  exists encoding,
    serializeHeaders 1073741808 scenario_headers = Some encoding
    /\ deserializeHeaders 1073741808 encoding = Some scenario_headers
    /\ set_header_map_pairs 1073741808 host_refuses 0 scenario_headers initial_World
       = if WasmResultValues.is_Ok (host_refuses 0 encoding) then Ret tt initial_World
         else Abort ":("
                (add_events
                   [proxy_log LogLevelValues.critical
                      (toString (WasmResultValues.to_Z (host_refuses 0 encoding)))]
                   initial_World).
Proof.
  apply (set_header_map_pairs_hands_over_the_encoding 1073741808 eq_refl host_refuses 0
           scenario_headers initial_World).
  vm_compute. discriminate.
Defined.

Lemma ensureRootContext_creates_witness :
  exists w' es,
    ensureRootContext host_root_name 1 registered_World
    = Ret (length (heap registered_World)) w'
    /\ heap w'
       = heap registered_World ++ [OfRootContext (set_context_id 1 (new_RootContext 1))]
    /\ context_map w'
       = Map_set (context_map registered_World) 1 (length (heap registered_World))
    /\ Map_get (context_map w') 1 = Some (length (heap registered_World))
    /\ events w' = events registered_World ++ es
    /\ List.filter is_call_factory es = [call_factory "root" 1].
Proof.
  apply (ensureRootContext_creates host_root_name 1 registered_World "root"
           new_RootContext).
  - reflexivity.
  - vm_compute. reflexivity.
  - vm_compute. reflexivity.
Defined.

Lemma ensureRootContext_property_failure_witness :
  exists w' es,
    ensureRootContext host_not_found 1 registered_World = Abort ":(" w'
    /\ heap w' = heap registered_World /\ context_map w' = context_map registered_World
    /\ events w' = events registered_World ++ es
    /\ List.filter is_call_factory es = []
    /\ In (proxy_log LogLevelValues.critical
             (toString (WasmResultValues.to_Z (hb_result host_not_found)))) es.
Proof.
  apply (ensureRootContext_property_failure host_not_found 1 registered_World).
  - reflexivity.
  - discriminate.
Defined.

Lemma ensureContext_creates_witness :
  exists w' es,
    ensureContext host_not_found 6 1 running_World = Ret tt w'
    /\ heap w'
       = heap running_World
         ++ [OfContext (createContext_ (new_RootContext 1) 0%nat 6)]
    /\ context_map w'
       = Map_set (context_map running_World) 6 (length (heap running_World))
    /\ Map_get (context_map w') 6 = Some (length (heap running_World))
    /\ events w' = events running_World ++ es
    /\ List.filter is_call_createContext_ es = [call_createContext_ 0%nat 6]
    /\ List.filter is_call_factory es = [].
Proof.
  apply (ensureContext_creates host_not_found 6 1 running_World 0%nat (new_RootContext 1)).
  - vm_compute. reflexivity.
  - reflexivity.
  - vm_compute. reflexivity.
Defined.

Lemma ensureContext_same_id_creates_root_only_witness :
  exists w' es,
    ensureContext host_root_name 1 1 registered_World = Ret tt w'
    /\ heap w'
       = heap registered_World ++ [OfRootContext (set_context_id 1 (new_RootContext 1))]
    /\ context_map w'
       = Map_set (context_map registered_World) 1 (length (heap registered_World))
    /\ events w' = events registered_World ++ es
    /\ List.filter is_call_createContext_ es = []
    /\ List.filter is_call_factory es = [call_factory "root" 1].
Proof.
  apply (ensureContext_same_id_creates_root_only host_root_name 1 registered_World "root"
           new_RootContext).
  - reflexivity.
  - vm_compute. reflexivity.
  - vm_compute. reflexivity.
Defined.

Lemma ensureRootContext_after_delete_witness :
  1%nat <> 0%nat
  /\ heap (final (ensureRootContext host_root_name 1
                    (final (deleteContext 1
                              (final (ensureRootContext host_root_name 1
                                        registered_World)))))) !! 0%nat
     = heap (final (ensureRootContext host_root_name 1 registered_World)) !! 0%nat
  /\ Map_get
       (context_map
          (final (ensureRootContext host_root_name 1
                    (final (deleteContext 1
                              (final (ensureRootContext host_root_name 1
                                        registered_World))))))) 1
     = Some 1%nat
  /\ exists es root_id,
       events (final (ensureRootContext host_root_name 1
                        (final (deleteContext 1
                                  (final (ensureRootContext host_root_name 1
                                            registered_World))))))
       = events (final (ensureRootContext host_root_name 1 registered_World)) ++ es
       /\ List.filter is_call_factory es = [call_factory root_id 1].
Proof.
  apply (ensureRootContext_after_delete host_root_name host_root_name 1 registered_World
           (final (ensureRootContext host_root_name 1 registered_World))
           (final (ensureRootContext host_root_name 1
                     (final (deleteContext 1
                               (final (ensureRootContext host_root_name 1
                                         registered_World))))))
           0%nat 1%nat).
  - reflexivity.
  - vm_compute. reflexivity.
  - vm_compute. reflexivity.
Defined.

Lemma registerRootContext_replaces_witness :
  exists w2 w' es,
    registerRootContext (fun id => new_RootContext (id + 1)) "root"
      (final (registerRootContext new_RootContext "root" initial_World))
    = Ret tt w2
    /\ Map_keys (root_context_factory_map w2)
       = Map_keys (root_context_factory_map
                     (final (registerRootContext new_RootContext "root" initial_World)))
    /\ ensureRootContext host_root_name 1 w2 = Ret (length (heap initial_World)) w'
    /\ heap w'
       = heap initial_World
         ++ [OfRootContext (set_context_id 1 ((fun id => new_RootContext (id + 1)) 1))]
    /\ events w' = events initial_World ++ es
    /\ List.filter is_call_factory es = [call_factory "root" 1].
Proof.
  apply (registerRootContext_replaces new_RootContext (fun id => new_RootContext (id + 1))
           "root" host_root_name 1 initial_World).
  - reflexivity.
  - vm_compute. reflexivity.
Defined.

Lemma httpCall_same_token_replaces_witness :
  http_calls_at
    (final (httpCall 1073741808 (fun _ => EmptyString) (fun _ => EmptyString) {| hc_result := WasmResultValues.Ok; hc_token := 7 |}
              0%nat "other" [] [] [] 500 1%nat 101
              (final (httpCall 1073741808 (fun _ => EmptyString) (fun _ => EmptyString)
                        {| hc_result := WasmResultValues.Ok; hc_token := 7 |}
                        0%nat "upstream" scenario_headers [] [] 1000 1%nat 100
                        running_World))))
    0%nat
  = Some (Map_set (http_calls_ (new_RootContext 1)) 7 (pending 1%nat 101))
  /\ Map_get (Map_set (http_calls_ (new_RootContext 1)) 7 (pending 1%nat 101)) 7
     = Some (pending 1%nat 101)
  /\ length (Map_set (http_calls_ (new_RootContext 1)) 7 (pending 1%nat 101))
     = length (Map_set (http_calls_ (new_RootContext 1)) 7 (pending 1%nat 100)).
Proof.
  apply (httpCall_same_token_replaces 1073741808 (fun _ => EmptyString) (fun _ => EmptyString) 7 0%nat "upstream" "other"
           scenario_headers [] [] [] [] [] 1000 500 1%nat 1%nat 100 101 running_World
           (final (httpCall 1073741808 (fun _ => EmptyString) (fun _ => EmptyString)
                     {| hc_result := WasmResultValues.Ok; hc_token := 7 |}
                     0%nat "upstream" scenario_headers [] [] 1000 1%nat 100
                     running_World))).
  - reflexivity.
  - vm_compute. reflexivity.
  - vm_compute. reflexivity.
Defined.

Lemma response_then_onDone_invoke_each_once_witness :
  exists w2 w3 es1 es2,
    onHttpCallResponse 0%nat (hc_token (a_host call_8)) 11 12 13
      (final (httpCalls 1073741808 (fun _ => EmptyString) (fun _ => EmptyString) 0%nat ([call_7] ++ call_8 :: []) running_World))
    = Ret tt w2
    /\ events w2
       = events (final (httpCalls 1073741808 (fun _ => EmptyString) (fun _ => EmptyString) 0%nat ([call_7] ++ call_8 :: [])
                          running_World)) ++ es1
    /\ onDone 0%nat w2 = Ret true w3
    /\ events w3 = events w2 ++ es2
    /\ cb_events (es1 ++ es2)
       = response call_8 11 12 13
         :: map (fun c => call_cb (a_cb c) (a_origin_context c) 0 0 0) ([call_7] ++ [])
    /\ http_calls_at w3 0%nat = Some [].
Proof.
  apply (response_then_onDone_invoke_each_once 1073741808 (fun _ => EmptyString) (fun _ => EmptyString) 0%nat [call_7] [] call_8
           running_World
           (final (httpCalls 1073741808 (fun _ => EmptyString) (fun _ => EmptyString) 0%nat ([call_7] ++ call_8 :: []) running_World))
           (new_RootContext 1) [WasmResultValues.Ok; WasmResultValues.Ok] 11 12 13).
  - reflexivity.
  - reflexivity.
  - vm_compute. reflexivity.
  - repeat constructor.
  - vm_compute. repeat constructor; rewrite ?elem_of_cons, ?elem_of_nil; lia.
  - vm_compute. eexists. reflexivity.
Defined.

Lemma onHttpCallResponse_second_response_is_dropped_witness :
  exists w2 es,
    onHttpCallResponse 2%nat 7 21 22 23
      (final (onHttpCallResponse 2%nat 7 11 12 13 two_roots_World))
    = Ret tt w2
    /\ heap w2 = heap (final (onHttpCallResponse 2%nat 7 11 12 13 two_roots_World))
    /\ events w2
       = events (final (onHttpCallResponse 2%nat 7 11 12 13 two_roots_World)) ++ es
    /\ cb_events es = []
    /\ In (proxy_log LogLevelValues.error
             ("onHttpCallResponse: Token " +:+ toString 7 +:+ " not found."))
         es.
Proof.
  apply (onHttpCallResponse_second_response_is_dropped 2%nat 7 11 12 13 21 22 23
           two_roots_World (final (onHttpCallResponse 2%nat 7 11 12 13 two_roots_World))
           (set_http_calls_ [(7, pending 1%nat 200)] (new_RootContext 2))
           (pending 1%nat 200)).
  - reflexivity.
  - vm_compute. reflexivity.
  - vm_compute. reflexivity.
Defined.

Lemma onDone_again_cancels_nothing_witness :
  exists w2 es,
    onDone 2%nat (final (onDone 2%nat two_roots_World)) = Ret true w2
    /\ events w2 = events (final (onDone 2%nat two_roots_World)) ++ es
    /\ cb_events es = []
    /\ heap w2 = heap (final (onDone 2%nat two_roots_World)).
Proof.
  apply (onDone_again_cancels_nothing 2%nat two_roots_World
           (final (onDone 2%nat two_roots_World))
           (set_http_calls_ [(7, pending 1%nat 200)] (new_RootContext 2))).
  - reflexivity.
  - vm_compute. reflexivity.
Defined.

Lemma pending_calls_are_per_root_context_witness :
  heap (final (onDone 0%nat two_roots_World)) !! 2%nat = heap two_roots_World !! 2%nat
  /\ http_calls_at (final (onDone 0%nat two_roots_World)) 2%nat
     = http_calls_at two_roots_World 2%nat.
Proof.
  apply (pending_calls_are_per_root_context 1073741808 (fun _ => EmptyString) (fun _ => EmptyString) 0%nat 2%nat two_roots_World
           (new_RootContext 1)).
  - reflexivity.
  - discriminate.
  - vm_compute. reflexivity.
Defined.

Lemma httpCall_encoding_failure_witness :
  exists w' es,
    httpCall 16 (fun _ => EmptyString) (fun _ => EmptyString) {| hc_result := WasmResultValues.Ok; hc_token := 7 |}
      0%nat "upstream" scenario_headers [] [] 1000 1%nat 100 running_World
    = Abort "RangeError" w'
    /\ heap w' = heap running_World
    /\ http_calls_at w' 0%nat = Some (http_calls_ (new_RootContext 1))
    /\ context_map w' = context_map running_World
    /\ events w' = events running_World ++ es
    /\ quiet es.
Proof.
  apply (httpCall_encoding_failure 16 (fun _ => EmptyString) (fun _ => EmptyString)
           {| hc_result := WasmResultValues.Ok; hc_token := 7 |}
           0%nat "upstream" scenario_headers [] [] 1000 1%nat 100 running_World
           (new_RootContext 1)).
  - reflexivity.
  - left. vm_compute. reflexivity.
Defined.
